(** * Task tracker bot (src/bot.py): task store, creation dialogue and
      pending-action resolver.

    The Python program is embedded shallowly.  The [TaskManager] object is a
    record that is threaded through every method; the per-user [user_data]
    dictionaries and the conversation table of the [ConversationHandler] are
    finite maps keyed by the user identifier. *)

From Stdlib Require Import ZArith String Ascii List Bool Lia.
From stdpp Require Import gmap strings list fin_maps.

Local Open Scope Z_scope.
Local Open Scope string_scope.
Local Open Scope list_scope.

(** ** Data model *)

(** A task is the dictionary built by [add_task].  The key ['priority'] is
    read with [task.get('priority', ...)], so a task (for instance one loaded
    from the data file) may lack it: [None] stands for the absent key.  The
    key ['reminder'] always exists, its value is a string or Python's
    [None]. *)
Record Task := mkTask {
  id : Z;
  text : string;
  priority : option string;
  created_at : string;
  completed : bool;
  reminder : option string
}.

#[global] Instance Task_eq_dec : EqDecision Task.
Proof. solve_decision. Defined.

(** [task['completed'] = True] *)
Definition set_completed (t : Task) : Task :=
  mkTask (id t) (text t) (priority t) (created_at t) true (reminder t).

(** PRIORITIES = ['🔴 Высокий', '🟡 Средний', '🟢 Низкий'] *)
Definition HIGH : string := "🔴 Высокий".
Definition MEDIUM : string := "🟡 Средний".
Definition LOW : string := "🟢 Низкий".
Definition PRIORITIES : list string := [HIGH; MEDIUM; LOW].

(** [self.tasks]: user id to [{'tasks': [...]}]; the inner dictionary has the
    single key ['tasks'] and is identified with the list it holds. *)
Abbreviation Store := (gmap Z (list Task)).

(** The [TaskManager] instance.  [saves] is the trace of [_save_tasks]: one
    entry per call, holding the mapping handed to [json.dump]. *)
Record TaskManager := mkTM {
  tasks : Store;
  saves : list Store
}.

Definition with_tasks (tm : TaskManager) (st : Store) : TaskManager :=
  mkTM st (saves tm).

(** [_save_tasks]: a failing write is caught and logged, the mapping in
    memory is never rolled back; the trace records the call. *)
Definition _save_tasks (tm : TaskManager) : TaskManager :=
  mkTM (tasks tm) (saves tm ++ [tasks tm]).

(** The list a user has, an absent entry read as the empty list. *)
Definition tasks_of (st : Store) (user_id : Z) : list Task :=
  default [] (st !! user_id).

(** ** TaskManager methods *)

(** [get_user_tasks]: an absent user gets an empty entry. *)
Definition get_user_tasks (tm : TaskManager) (user_id : Z)
  : TaskManager * list Task :=
  match tasks tm !! user_id with
  | Some l => (tm, l)
  | None => (with_tasks tm (<[user_id := []]> (tasks tm)), [])
  end.

Section Clock.

(** [datetime.strftime('%Y-%m-%d %H:%M:%S')] on a naive local date and time,
    which is counted here in seconds. *)
Variable strftime : Z → string.

(** [add_task]; [now] is the reading of [datetime.now()]. *)
Definition add_task (tm : TaskManager) (user_id : Z) (txt : string)
    (prio : string) (rem : option string) (now : Z) : TaskManager * Task :=
  let st := match tasks tm !! user_id with
            | Some _ => tasks tm
            | None => <[user_id := []]> (tasks tm)
            end in
  let l := tasks_of st user_id in
  let task := mkTask (Z.of_nat (length l) + 1) txt (Some prio)
                     (strftime now) false rem in
  (_save_tasks (with_tasks tm (<[user_id := l ++ [task]]> st)), task).

End Clock.

(** The loop of [complete_task]: the first task with the id is marked and the
    loop returns; [None] when the loop runs to its end. *)
Fixpoint complete_first (l : list Task) (task_id : Z) : option (list Task) :=
  match l with
  | [] => None
  | t :: r =>
      if bool_decide (id t = task_id) then Some (set_completed t :: r)
      else cons t <$> complete_first r task_id
  end.

Definition complete_task (tm : TaskManager) (user_id task_id : Z)
  : TaskManager * bool :=
  let '(tm1, l) := get_user_tasks tm user_id in
  match complete_first l task_id with
  | Some l' => (_save_tasks (with_tasks tm1 (<[user_id := l']> (tasks tm1))), true)
  | None => (tm1, false)
  end.

(** [[t for t in tasks if t['id'] != task_id]] *)
Definition without_id (task_id : Z) (l : list Task) : list Task :=
  List.filter (fun t => negb (bool_decide (id t = task_id))) l.

Definition delete_task (tm : TaskManager) (user_id task_id : Z)
  : TaskManager * bool :=
  let '(tm1, l) := get_user_tasks tm user_id in
  let initial_length := length l in
  let tm2 := with_tasks tm1 (<[user_id := without_id task_id l]> (tasks tm1)) in
  if (length (tasks_of (tasks tm2) user_id) <? initial_length)%nat
  then (_save_tasks tm2, true)
  else (tm2, false).

(** [{p: [] for p in PRIORITIES}] *)
Definition empty_buckets : gmap string (list Task) :=
  fold_left (fun d p => <[p := []]> d) PRIORITIES ∅.

(** One round of the loop of [get_tasks_by_priority]. *)
Definition categorize (categorized : gmap string (list Task)) (task : Task)
  : gmap string (list Task) :=
  if negb (completed task) then
    let p := default MEDIUM (priority task) in
    match categorized !! p with
    | Some b => <[p := b ++ [task]]> categorized
    | None => categorized
    end
  else categorized.

Definition get_tasks_by_priority (tm : TaskManager) (user_id : Z)
  : TaskManager * gmap string (list Task) :=
  let '(tm1, l) := get_user_tasks tm user_id in
  (tm1, fold_left categorize l empty_buckets).

(** ** Chat side: messages, session data, replies *)

(** An inbound message as the transport classifies it: a bot command, named
    by its token without the slash, or free text ([filters.TEXT &
    ~filters.COMMAND]). *)
Inductive Msg :=
| Command (name : string)
| Text (body : string).

(** An update; [now1] is what [datetime.now()] reads in [set_reminder] and
    [now2] what it reads in [add_task], should the handler get there. *)
Record Update := mkUpdate {
  effective_user : Z;
  message : Msg;
  now1 : Z;
  now2 : Z
}.

(** [context.user_data], a dictionary with the four keys the handlers use.  A
    field of the draft is [None] when its key is absent; the two flags are
    only ever stored as [True], so a flag is [true] exactly when its key is
    present. *)
Record UserData := mkUD {
  task_text : option string;
  task_priority : option string;
  awaiting_complete : bool;
  awaiting_delete : bool
}.

(** [context.user_data.clear()] *)
Definition cleared : UserData := mkUD None None false false.

(** CHOOSING_ACTION, ADD_TASK, SET_PRIORITY, SET_REMINDER = range(4) *)
Inductive ConvState := CHOOSING_ACTION | ADD_TASK | SET_PRIORITY | SET_REMINDER.

#[global] Instance ConvState_eq_dec : EqDecision ConvState.
Proof. solve_decision. Defined.

(** What a callback of the conversation returns: a state, or
    [ConversationHandler.END]. *)
Inductive Ret := Next (s : ConvState) | END.

(** The replies, one constructor per message template of the source, with
    the values interpolated into it. *)
Inductive Reply :=
| RWelcome
| RHelp
| RAskText
| RAskPriority (keyboard : list string)
| RBadPriority
| RAskReminder (keyboard : list string)
| RCreated (task : Task) (reminder_time : option string)
| RNoActiveTasks
| RTaskList (by_priority : list (string * list Task)) (done_tail : list Task)
| RNothingToComplete
| RChooseComplete (active : list Task)
| RNothingToDelete
| RChooseDelete (all : list Task)
| RSendNumber
| RBadNumber
| RCompleted (task_id : Z)
| RDeleted (task_id : Z)
| RNotFound (task_id : Z)
| RCancelled
| RError.

(** What running a callback leaves behind. *)
Record Outcome := mkOut {
  out_tm : TaskManager;
  out_ud : UserData;
  out_ret : option Ret;
  out_replies : list Reply
}.

(** The four timed labels of the reminder keyboard and their [timedelta], in
    seconds, as the [if]/[elif] chain of [set_reminder] tests them. *)
Definition reminder_offset (reminder_text : string) : option Z :=
  if bool_decide (reminder_text = "Через 1 час") then Some 3600
  else if bool_decide (reminder_text = "Через 3 часа") then Some (3 * 3600)
  else if bool_decide (reminder_text = "Завтра") then Some 86400
  else if bool_decide (reminder_text = "Через неделю") then Some (7 * 86400)
  else None.

(** [reminder_time] of [set_reminder]: [None] unless the text is one of the
    four labels, else the formatted reading [t1] of the clock plus the
    offset. *)
Definition reminder_time (strftime : Z → string) (reminder_text : string)
    (t1 : Z) : option string :=
  (λ d, strftime (t1 + d)) <$> reminder_offset reminder_text.

Definition reminder_keyboard : list string :=
  ["Через 1 час"; "Через 3 часа"; "Завтра"; "Через неделю"; "Без напоминания"].

(** ** Callbacks *)

Module Handlers.
Section Handlers.

Variable strftime : Z → string.

(** Python's [int] on a string; [None] is [ValueError]. *)
Variable int : string → option Z.

Definition start (tm : TaskManager) (ud : UserData) : Outcome :=
  mkOut tm ud (Some END) [RWelcome].

Definition help_command (tm : TaskManager) (ud : UserData) : Outcome :=
  mkOut tm ud None [RHelp].

Definition add_task_start (tm : TaskManager) (ud : UserData) : Outcome :=
  mkOut tm ud (Some (Next ADD_TASK)) [RAskText].

Definition add_task_text (tm : TaskManager) (ud : UserData) (txt : string)
  : Outcome :=
  mkOut tm (mkUD (Some txt) (task_priority ud) (awaiting_complete ud)
                 (awaiting_delete ud))
        (Some (Next SET_PRIORITY)) [RAskPriority PRIORITIES].

Definition set_priority (tm : TaskManager) (ud : UserData) (txt : string)
  : Outcome :=
  if bool_decide (txt ∈ PRIORITIES) then
    mkOut tm (mkUD (task_text ud) (Some txt) (awaiting_complete ud)
                   (awaiting_delete ud))
          (Some (Next SET_REMINDER)) [RAskReminder reminder_keyboard]
  else mkOut tm ud (Some (Next SET_PRIORITY)) [RBadPriority].

(** [set_reminder]; [None] is the [KeyError] of reading a draft key that is
    not there, raised while the arguments of [add_task] are evaluated, hence
    before anything is changed. *)
Definition set_reminder (tm : TaskManager) (ud : UserData) (user_id : Z)
    (reminder_text : string) (t1 t2 : Z) : option Outcome :=
  let reminder_time := reminder_time strftime reminder_text t1 in
  match task_text ud, task_priority ud with
  | Some txt, Some prio =>
      let '(tm', task) := add_task strftime tm user_id txt prio reminder_time t2 in
      Some (mkOut tm' cleared (Some END) [RCreated task reminder_time])
  | _, _ => None
  end.

(** [completed_tasks[-5:]] *)
Definition last5 (l : list Task) : list Task := drop (length l - 5)%nat l.

Definition list_tasks (tm : TaskManager) (ud : UserData) (user_id : Z)
  : Outcome :=
  let '(tm1, tasks_by_priority) := get_tasks_by_priority tm user_id in
  let buckets := map (fun p => (p, default [] (tasks_by_priority !! p))) PRIORITIES in
  let total_tasks := list_sum (map (fun pb => length (snd pb)) buckets) in
  if (total_tasks =? 0)%nat then mkOut tm1 ud None [RNoActiveTasks]
  else
    let '(tm2, all_tasks) := get_user_tasks tm1 user_id in
    mkOut tm2 ud None
      [RTaskList (List.filter (fun pb => negb (length (snd pb) =? 0)%nat) buckets)
                 (last5 (List.filter completed all_tasks))].

(** [context.user_data.pop('awaiting_complete', None)] and its twin. *)
Definition pop_awaiting_complete (ud : UserData) : UserData :=
  mkUD (task_text ud) (task_priority ud) false (awaiting_delete ud).
Definition pop_awaiting_delete (ud : UserData) : UserData :=
  mkUD (task_text ud) (task_priority ud) (awaiting_complete ud) false.

(** Stated ahead of the two command callbacks below, which reuse the names
    of the methods it calls. *)
Definition handle_task_action (tm : TaskManager) (ud : UserData) (user_id : Z)
    (txt : string) : Outcome :=
  match int txt with
  | None => mkOut tm ud None [RBadNumber]
  | Some task_id =>
      if awaiting_complete ud then
        let '(tm', ok) := complete_task tm user_id task_id in
        mkOut tm' (pop_awaiting_complete ud) None
              [if ok then RCompleted task_id else RNotFound task_id]
      else if awaiting_delete ud then
        let '(tm', ok) := delete_task tm user_id task_id in
        mkOut tm' (pop_awaiting_delete ud) None
              [if ok then RDeleted task_id else RNotFound task_id]
      else mkOut tm ud None []
  end.

Definition complete_task (tm : TaskManager) (ud : UserData) (user_id : Z)
  : Outcome :=
  let '(tm1, l) := get_user_tasks tm user_id in
  let active_tasks := List.filter (fun t => negb (completed t)) l in
  match active_tasks with
  | [] => mkOut tm1 ud None [RNothingToComplete]
  | _ => mkOut tm1 (mkUD (task_text ud) (task_priority ud) true (awaiting_delete ud))
               None [RChooseComplete active_tasks; RSendNumber]
  end.

Definition delete_task (tm : TaskManager) (ud : UserData) (user_id : Z)
  : Outcome :=
  let '(tm1, l) := get_user_tasks tm user_id in
  match l with
  | [] => mkOut tm1 ud None [RNothingToDelete]
  | _ => mkOut tm1 (mkUD (task_text ud) (task_priority ud) (awaiting_complete ud) true)
               None [RChooseDelete l; RSendNumber]
  end.

Definition cancel (tm : TaskManager) (ud : UserData) : Outcome :=
  mkOut tm cleared (Some END) [RCancelled].

End Handlers.
End Handlers.

(** ** Dispatch *)

(** The callbacks registered in [main]. *)
Inductive Callback :=
| cb_start | cb_help_command | cb_add_task_start | cb_add_task_text
| cb_set_priority | cb_set_reminder | cb_list_tasks | cb_complete_task
| cb_delete_task | cb_handle_task_action | cb_cancel.

(** [CommandHandler(name, cb).check_update] and
    [MessageHandler(filters.TEXT & ~filters.COMMAND, cb).check_update]. *)
Definition command_handler (name : string) (cb : Callback) (m : Msg)
  : option Callback :=
  match m with
  | Command c => if bool_decide (c = name) then Some cb else None
  | Text _ => None
  end.

Definition text_handler (cb : Callback) (m : Msg) : option Callback :=
  match m with
  | Command _ => None
  | Text _ => Some cb
  end.

(** The first handler of a list that accepts the message. *)
Fixpoint first_match (hs : list (Msg → option Callback)) (m : Msg)
  : option Callback :=
  match hs with
  | [] => None
  | h :: r => match h m with Some cb => Some cb | None => first_match r m end
  end.

(** The three tables of [add_task_conv]. *)
Definition entry_points : list (Msg → option Callback) :=
  [command_handler "add" cb_add_task_start].

Definition states (s : ConvState) : list (Msg → option Callback) :=
  match s with
  | CHOOSING_ACTION => []
  | ADD_TASK => [text_handler cb_add_task_text]
  | SET_PRIORITY => [text_handler cb_set_priority]
  | SET_REMINDER => [text_handler cb_set_reminder]
  end.

Definition fallbacks : list (Msg → option Callback) :=
  [command_handler "cancel" cb_cancel].

(** [ConversationHandler.check_update] with [allow_reentry] left at its
    default [False]: outside a conversation only the entry points are tried,
    inside one the handlers of the current state and then the fallbacks. *)
Definition conversation_check (state : option ConvState) (m : Msg)
  : option Callback :=
  match state with
  | None => first_match entry_points m
  | Some s =>
      match first_match (states s) m with
      | Some cb => Some cb
      | None => first_match fallbacks m
      end
  end.

(** The bot: the task manager, [application.user_data] and the conversation
    table of [add_task_conv].  Both session maps are keyed by the user id: the
    model follows each user in the private chat with the bot. *)
Record Bot := mkBot {
  task_manager : TaskManager;
  user_data : gmap Z UserData;
  conversations : gmap Z ConvState
}.

Definition user_data_of (b : Bot) (user_id : Z) : UserData :=
  default cleared (user_data b !! user_id).

(** The handlers of [main] in the order of registration (all in group 0, so
    the first that accepts the update handles it alone).  The flag tells
    whether the callback was chosen by the conversation handler, which then
    records the state the callback returns. *)
Definition select (state : option ConvState) (m : Msg)
  : option (Callback * bool) :=
  match command_handler "start" cb_start m with Some cb => Some (cb, false) | None =>
  match command_handler "help" cb_help_command m with Some cb => Some (cb, false) | None =>
  match conversation_check state m with Some cb => Some (cb, true) | None =>
  match command_handler "list" cb_list_tasks m with Some cb => Some (cb, false) | None =>
  match command_handler "complete" cb_complete_task m with Some cb => Some (cb, false) | None =>
  match command_handler "delete" cb_delete_task m with Some cb => Some (cb, false) | None =>
  match command_handler "cancel" cb_cancel m with Some cb => Some (cb, false) | None =>
  match text_handler cb_handle_task_action m with Some cb => Some (cb, false) | None =>
  None end end end end end end end end.

(** [update.message.text] *)
Definition message_text (m : Msg) : string :=
  match m with
  | Command c => String.append "/" c
  | Text s => s
  end.

Section Dispatch.

Variable strftime : Z → string.
Variable int : string → option Z.

Definition run (cb : Callback) (tm : TaskManager) (ud : UserData) (u : Update)
  : option Outcome :=
  let user_id := effective_user u in
  let txt := message_text (message u) in
  match cb with
  | cb_start => Some (Handlers.start tm ud)
  | cb_help_command => Some (Handlers.help_command tm ud)
  | cb_add_task_start => Some (Handlers.add_task_start tm ud)
  | cb_add_task_text => Some (Handlers.add_task_text tm ud txt)
  | cb_set_priority => Some (Handlers.set_priority tm ud txt)
  | cb_set_reminder =>
      Handlers.set_reminder strftime tm ud user_id txt (now1 u) (now2 u)
  | cb_list_tasks => Some (Handlers.list_tasks tm ud user_id)
  | cb_complete_task => Some (Handlers.complete_task tm ud user_id)
  | cb_delete_task => Some (Handlers.delete_task tm ud user_id)
  | cb_handle_task_action => Some (Handlers.handle_task_action int tm ud user_id txt)
  | cb_cancel => Some (Handlers.cancel tm ud)
  end.

(** How the conversation handler records what its callback returned. *)
Definition update_state (ret : option Ret) (user_id : Z)
    (c : gmap Z ConvState) : gmap Z ConvState :=
  match ret with
  | Some END => delete user_id c
  | Some (Next s) => <[user_id := s]> c
  | None => c
  end.

(** [Application.process_update] for one update.  An update no handler
    accepts changes nothing; a callback that raises leaves the bot as it was
    and [error_handler] answers. *)
Definition process_update (b : Bot) (u : Update) : Bot * list Reply :=
  let user_id := effective_user u in
  match select (conversations b !! user_id) (message u) with
  | None => (b, [])
  | Some (cb, in_conversation) =>
      match run cb (task_manager b) (user_data_of b user_id) u with
      | None => (b, [RError])
      | Some o =>
          (mkBot (out_tm o)
                 (<[user_id := out_ud o]> (user_data b))
                 (if in_conversation
                  then update_state (out_ret o) user_id (conversations b)
                  else conversations b),
           out_replies o)
      end
  end.

(** The bot after a sequence of updates, starting from [b]. *)
Definition run_updates (b : Bot) (us : list Update) : Bot :=
  fold_left (fun b u => fst (process_update b u)) us b.

(** A fresh process: the store as [_load_tasks] returned it, no session. *)
Definition boot (st : Store) : Bot := mkBot (mkTM st []) ∅ ∅.

End Dispatch.

(** ** Stand-ins for the examples *)

(** A formatter and a parser to run the model on concrete inputs.  The
    theorems below hold for every formatter and every parser; these two only
    serve the closed examples. *)
Definition digit_of (n : nat) : string :=
  String (Ascii.ascii_of_nat (48 + n)) "".

Fixpoint show_nat_fuel (fuel n : nat) (acc : string) : string :=
  match fuel with
  | O => acc
  | S f =>
      let acc' := String.append (digit_of (n mod 10)) acc in
      if (n / 10 =? 0)%nat then acc' else show_nat_fuel f (n / 10) acc'
  end.

(** Seconds printed in decimal. *)
Definition show_seconds (z : Z) : string :=
  let n := Z.to_nat (Z.abs z) in
  String.append (if (z <? 0)%Z then "-" else "") (show_nat_fuel (S n) n "").

Fixpoint digits_value (s : string) (acc : Z) : option Z :=
  match s with
  | EmptyString => Some acc
  | String c r =>
      let n := Ascii.nat_of_ascii c in
      if ((48 <=? n) && (n <=? 57))%nat
      then digits_value r (10 * acc + Z.of_nat (n - 48))
      else None
  end.

(** The plain forms [int] accepts: an optional sign and ASCII digits. *)
Definition int_ascii (s : string) : option Z :=
  match s with
  | EmptyString => None
  | String "-"%char (String c r) => Z.opp <$> digits_value (String c r) 0
  | String "+"%char (String c r) => digits_value (String c r) 0
  | _ => digits_value s 0
  end.

(** The reading of [delete_task] that takes out one task only, the first
    with the id; it is compared with [without_id] below. *)
Fixpoint remove_first_id (task_id : Z) (l : list Task) : list Task :=
  match l with
  | [] => []
  | t :: r => if bool_decide (id t = task_id) then r
              else t :: remove_first_id task_id r
  end.

(** What a bucket of [get_tasks_by_priority] selects. *)
Definition in_bucket (p : string) (t : Task) : bool :=
  negb (completed t) && bool_decide (default MEDIUM (priority t) = p).

(** The draft a conversation state goes with: no field before the text is
    given, the text alone while the priority is asked, both while the
    reminder is asked. *)
Definition draft_ok (s : option ConvState) (ud : UserData) : Prop :=
  match s with
  | None | Some ADD_TASK => task_text ud = None ∧ task_priority ud = None
  | Some SET_PRIORITY => is_Some (task_text ud) ∧ task_priority ud = None
  | Some SET_REMINDER => is_Some (task_text ud) ∧ is_Some (task_priority ud)
  | Some CHOOSING_ACTION => False
  end.

Definition session_inv (b : Bot) : Prop :=
  ∀ v, draft_ok (conversations b !! v) (user_data_of b v).

(** The ids of a list from which nothing was deleted: 1, 2, ... in order. *)
Definition ids_in_sequence (l : list Task) : Prop :=
  id <$> l = Z.of_nat <$> seq 1 (length l).

(** Every task's id is at least its position, counted from 1. *)
Definition ids_cover_position (l : list Task) : Prop :=
  ∀ k t, l !! k = Some t → (Z.of_nat k + 1 ≤ id t)%Z.

(** The fields of a task that no method writes after [add_task]. *)
Definition fixed_fields (t : Task)
  : Z * string * option string * string * option string :=
  (id t, text t, priority t, created_at t, reminder t).

(** What the data file holds: the mapping of the last [_save_tasks], or the
    mapping [_load_tasks] read when nothing was saved since. *)
Definition persisted (loaded : Store) (tm : TaskManager) : Store :=
  default loaded (last (saves tm)).

(** The data file and the memory agree on the list of every user. *)
Definition in_sync (loaded : Store) (tm : TaskManager) : Prop :=
  ∀ v, tasks_of (persisted loaded tm) v = tasks_of (tasks tm) v.

(** [sum(len(tasks) for tasks in tasks_by_priority.values())] over the three
    keys. *)
Definition bucket_total (d : gmap string (list Task)) : nat :=
  list_sum ((λ p, length (default [] (d !! p))) <$> PRIORITIES).

(** * Properties *)

(** Membership in a list that is written out. *)
Ltac in_list :=
  repeat (first [by apply list_elem_of_here | apply list_elem_of_further]).

Lemma priorities_set p :
  p ∈ ({[HIGH; MEDIUM; LOW]} : gset string) ↔ p ∈ PRIORITIES.
Proof.
  unfold PRIORITIES.
  rewrite !elem_of_union, !elem_of_singleton, !elem_of_cons, elem_of_nil.
  tauto.
Qed.

Example int_ascii_samples :
  int_ascii "12" = Some 12 ∧ int_ascii "-3" = Some (-3)
  ∧ int_ascii "abc" = None ∧ int_ascii "" = None.
Proof. repeat split; reflexivity. Qed.

Example show_seconds_sample : show_seconds 3600 = "3600".
Proof. reflexivity. Qed.

Example priorities_distinct : HIGH ≠ MEDIUM ∧ MEDIUM ≠ LOW ∧ HIGH ≠ LOW.
Proof. repeat split; discriminate. Qed.

(** ** The store *)

Lemma get_user_tasks_fst tm u :
  fst (get_user_tasks tm u)
  = with_tasks tm (<[u := tasks_of (tasks tm) u]> (tasks tm)).
Proof.
  unfold get_user_tasks, tasks_of.
  destruct (tasks tm !! u) as [l|] eqn:E; simpl; [|done].
  rewrite insert_id by done. by destruct tm.
Qed.

Lemma get_user_tasks_snd tm u :
  snd (get_user_tasks tm u) = tasks_of (tasks tm) u.
Proof.
  unfold get_user_tasks, tasks_of. by destruct (tasks tm !! u).
Qed.

Lemma get_user_tasks_eq tm u :
  get_user_tasks tm u
  = (with_tasks tm (<[u := tasks_of (tasks tm) u]> (tasks tm)),
     tasks_of (tasks tm) u).
Proof.
  rewrite <- get_user_tasks_fst, <- get_user_tasks_snd.
  by destruct (get_user_tasks tm u).
Qed.

Lemma tasks_of_insert st u v l :
  tasks_of (<[u := l]> st) v = if decide (u = v) then l else tasks_of st v.
Proof.
  unfold tasks_of. rewrite lookup_insert. by case_decide.
Qed.

Lemma tasks_of_insert_eq st u l : tasks_of (<[u := l]> st) u = l.
Proof. rewrite tasks_of_insert. by case_decide. Qed.

Lemma tasks_of_materialize st u v :
  tasks_of (<[u := tasks_of st u]> st) v = tasks_of st v.
Proof. rewrite tasks_of_insert. case_decide; by subst. Qed.

Lemma complete_first_None l i :
  complete_first l i = None ↔ ∀ t, t ∈ l → id t ≠ i.
Proof.
  induction l as [|t r IH]; simpl.
  - split; [intros _ t Ht; inversion Ht | done].
  - case_bool_decide as E.
    + split; [done | intros H; exfalso; apply (H t); [left | done]].
    + destruct (complete_first r i) as [l'|] eqn:Er; simpl.
      * split; [done | intros H].
        assert (Some l' = None) as Hn; [|done].
        apply IH. intros t' Ht'. apply H. by right.
      * split; [intros _ t' Ht' | done].
        apply elem_of_cons in Ht' as [->|Ht']; [done|].
        by apply IH.
Qed.

Lemma complete_first_Some l i l' :
  complete_first l i = Some l' →
  ∃ k t, l !! k = Some t ∧ id t = i
         ∧ (∀ j t', (j < k)%nat → l !! j = Some t' → id t' ≠ i)
         ∧ l' = <[k := set_completed t]> l.
Proof.
  revert l'. induction l as [|t r IH]; intros l'; simpl; [done|].
  case_bool_decide as E.
  - intros [= <-]. exists 0%nat, t. repeat split; [done | lia].
  - destruct (complete_first r i) as [r'|] eqn:Er; simpl; [|done].
    intros [= <-]. destruct (IH r' eq_refl) as (k & t' & Hk & Hid & Hfirst & ->).
    exists (S k), t'. repeat split; [done..|].
    intros [|j] t'' Hj; simpl; [by intros [= <-]|].
    apply Hfirst. lia.
Qed.

Lemma without_id_length_lt i l :
  (length (without_id i l) <? length l)%nat = true ↔ ∃ t, t ∈ l ∧ id t = i.
Proof.
  rewrite Nat.ltb_lt. unfold without_id.
  induction l as [|t r IH]; simpl.
  - split; [lia | intros (t & Ht & _); inversion Ht].
  - pose proof (List.filter_length_le
      (fun t => negb (bool_decide (id t = i))) r) as Hle.
    case_bool_decide as E; simpl.
    + split; [intros _; exists t; split; [left | done] | lia].
    + split.
      * intros H. destruct IH as [IH _].
        destruct IH as (t' & Ht' & Hid); [lia|]. exists t'. split; [by right | done].
      * intros (t' & Ht' & Hid).
        apply elem_of_cons in Ht' as [->|Ht']; [done|].
        destruct IH as [_ IH]. assert (∃ t, t ∈ r ∧ id t = i) as Hex by eauto.
        specialize (IH Hex). lia.
Qed.

Lemma without_id_no_match i l :
  (∀ t, t ∈ l → id t ≠ i) → without_id i l = l.
Proof.
  unfold without_id. induction l as [|t r IH]; intros H; simpl; [done|].
  rewrite bool_decide_eq_false_2 by (apply H; left). simpl.
  f_equal. apply IH. intros t' Ht'. apply H. by right.
Qed.

Section StoreFacts.

Variable strftime : Z → string.

Lemma add_task_new tm u txt prio rem now :
  snd (add_task strftime tm u txt prio rem now)
  = mkTask (Z.of_nat (length (tasks_of (tasks tm) u)) + 1) txt (Some prio)
           (strftime now) false rem.
Proof.
  unfold add_task; simpl. do 2 f_equal.
  unfold tasks_of. destruct (tasks tm !! u) as [l|] eqn:E.
  - by rewrite E.
  - by rewrite lookup_insert_eq.
Qed.

Lemma add_task_tasks tm u txt prio rem now :
  tasks (fst (add_task strftime tm u txt prio rem now))
  = <[u := tasks_of (tasks tm) u
           ++ [snd (add_task strftime tm u txt prio rem now)]]> (tasks tm).
Proof.
  unfold add_task; simpl.
  unfold tasks_of. destruct (tasks tm !! u) as [l|] eqn:E.
  - by rewrite E.
  - rewrite lookup_insert_eq. simpl. by rewrite insert_insert_eq.
Qed.

Lemma add_task_saves tm u txt prio rem now :
  saves (fst (add_task strftime tm u txt prio rem now))
  = saves tm ++ [tasks (fst (add_task strftime tm u txt prio rem now))].
Proof. done. Qed.

End StoreFacts.

Lemma delete_task_tasks tm u i :
  tasks (fst (delete_task tm u i))
  = <[u := without_id i (tasks_of (tasks tm) u)]> (tasks tm).
Proof.
  unfold delete_task. rewrite get_user_tasks_eq. simpl.
  rewrite insert_insert_eq. by case_match.
Qed.

Lemma delete_task_snd tm u i :
  snd (delete_task tm u i)
  = (length (without_id i (tasks_of (tasks tm) u))
     <? length (tasks_of (tasks tm) u))%nat.
Proof.
  unfold delete_task. rewrite get_user_tasks_eq. simpl.
  rewrite insert_insert_eq, tasks_of_insert_eq. by case_match.
Qed.

Lemma delete_task_saves tm u i :
  saves (fst (delete_task tm u i))
  = if snd (delete_task tm u i)
    then saves tm ++ [tasks (fst (delete_task tm u i))]
    else saves tm.
Proof.
  unfold delete_task. rewrite get_user_tasks_eq. simpl.
  by case_match.
Qed.

Lemma complete_task_unfold tm u i :
  complete_task tm u i
  = match complete_first (tasks_of (tasks tm) u) i with
    | Some l' => (mkTM (<[u := l']> (tasks tm))
                       (saves tm ++ [<[u := l']> (tasks tm)]), true)
    | None => (with_tasks tm (<[u := tasks_of (tasks tm) u]> (tasks tm)), false)
    end.
Proof.
  unfold complete_task. rewrite get_user_tasks_eq.
  destruct (complete_first _ _); [|done].
  unfold _save_tasks, with_tasks; simpl. by rewrite insert_insert_eq.
Qed.

(** C1.  [add_task] gives the new task the id "length of the user's list
    plus one" and appends it, whatever the store holds and whichever ids were
    deleted before; in particular, after tasks 1 and 2 are created and task 1
    is deleted, the next task gets id 2 while the surviving task with id 2 is
    still in the list. *)
Theorem add_task_id_is_length_plus_one :
  (∀ (strftime : Z → string) tm u txt prio rem now,
     let r := add_task strftime tm u txt prio rem now in
     id (snd r) = Z.of_nat (length (tasks_of (tasks tm) u)) + 1
     ∧ tasks_of (tasks (fst r)) u = tasks_of (tasks tm) u ++ [snd r])
  ∧ (∀ (strftime : Z → string) st u now,
     st !! u = None →
     let tm1 := fst (add_task strftime (mkTM st []) u "A" MEDIUM None now) in
     let tm2 := fst (add_task strftime tm1 u "B" MEDIUM None now) in
     let tm3 := fst (delete_task tm2 u 1) in
     let r := add_task strftime tm3 u "C" MEDIUM None now in
     id (snd r) = 2
     ∧ map id (tasks_of (tasks tm3) u) = [2]
     ∧ map id (tasks_of (tasks (fst r)) u) = [2; 2]
     ∧ map text (tasks_of (tasks (fst r)) u) = ["B"; "C"]).
Proof.
  split.
  - intros strftime tm u txt prio rem now r. subst r. split.
    + by rewrite add_task_new.
    + by rewrite add_task_tasks, tasks_of_insert_eq.
  - intros strftime st u now Hu tm1 tm2 tm3 r.
    assert (tasks_of (tasks tm1) u
            = [mkTask 1 "A" (Some MEDIUM) (strftime now) false None]) as H1.
    { subst tm1. rewrite add_task_tasks, tasks_of_insert_eq, add_task_new.
      simpl. unfold tasks_of. by rewrite Hu. }
    assert (tasks_of (tasks tm2) u
            = [mkTask 1 "A" (Some MEDIUM) (strftime now) false None;
               mkTask 2 "B" (Some MEDIUM) (strftime now) false None]) as H2.
    { subst tm2. rewrite add_task_tasks, tasks_of_insert_eq, add_task_new.
      by rewrite H1. }
    assert (tasks_of (tasks tm3) u
            = [mkTask 2 "B" (Some MEDIUM) (strftime now) false None]) as H3.
    { subst tm3. rewrite delete_task_tasks, tasks_of_insert_eq. by rewrite H2. }
    subst r. rewrite add_task_tasks, tasks_of_insert_eq, add_task_new.
    by rewrite H3.
Qed.

Lemma add_task_id_is_length_plus_one_witness :
  let tm1 := fst (add_task show_seconds (mkTM ∅ []) 7 "A" MEDIUM None 0) in
  let tm2 := fst (add_task show_seconds tm1 7 "B" MEDIUM None 0) in
  let tm3 := fst (delete_task tm2 7 1) in
  let r := add_task show_seconds tm3 7 "C" MEDIUM None 0 in
  id (snd r) = 2
  ∧ map id (tasks_of (tasks tm3) 7) = [2]
  ∧ map id (tasks_of (tasks (fst r)) 7) = [2; 2]
  ∧ map text (tasks_of (tasks (fst r)) 7) = ["B"; "C"].
Proof.
  apply (proj2 add_task_id_is_length_plus_one show_seconds ∅ 7 0).
  reflexivity.
Defined.

Lemma without_id_filter i l :
  without_id i l = filter (λ t, id t ≠ i) l.
Proof.
  unfold without_id. induction l as [|t r IH]; simpl; [done|].
  rewrite filter_cons. case_bool_decide; case_decide; simpl; congruence.
Qed.

(** C2, as the code has it.  [delete_task] removes every task whose id is the
    given one and keeps the others in their order; it reports success, and
    saves, exactly when some task had the id; the lists of other users stay
    as they were. *)
Theorem delete_task_removes_every_match :
  ∀ tm u i,
    let r := delete_task tm u i in
    let old := tasks_of (tasks tm) u in
    tasks_of (tasks (fst r)) u = filter (λ t, id t ≠ i) old
    ∧ (∀ t, t ∈ tasks_of (tasks (fst r)) u ↔ t ∈ old ∧ id t ≠ i)
    ∧ tasks_of (tasks (fst r)) u `sublist_of` old
    ∧ (snd r = true ↔ ∃ t, t ∈ old ∧ id t = i)
    ∧ (snd r = true ↔ (length (tasks_of (tasks (fst r)) u) < length old)%nat)
    ∧ saves (fst r)
      = (if snd r then saves tm ++ [tasks (fst r)] else saves tm)
    ∧ (∀ v, v ≠ u → tasks (fst r) !! v = tasks tm !! v).
Proof.
  intros tm u i r old. subst r old.
  rewrite delete_task_tasks, tasks_of_insert_eq, delete_task_snd.
  rewrite without_id_filter.
  split; [done|]. split; [intros t; rewrite list_elem_of_filter; tauto|].
  split; [apply sublist_filter|].
  split; [rewrite <- without_id_filter; apply without_id_length_lt|].
  split; [apply Nat.ltb_lt|].
  split.
  - rewrite delete_task_saves, delete_task_snd, delete_task_tasks.
    by rewrite without_id_filter.
  - intros v Hv. by rewrite lookup_insert_ne.
Qed.

(** C2, the sentence of the specification refuted.  After tasks A and B are
    created, task 1 is deleted and task C is created, the list holds B and C,
    both with id 2; deleting id 2 empties the list, where removing the first
    match only would leave C. *)
Lemma delete_task_first_only_counterexample :
  let tm1 := fst (add_task show_seconds (mkTM ∅ []) 7 "A" MEDIUM None 0) in
  let tm2 := fst (add_task show_seconds tm1 7 "B" MEDIUM None 0) in
  let tm3 := fst (delete_task tm2 7 1) in
  let tm4 := fst (add_task show_seconds tm3 7 "C" MEDIUM None 0) in
  map (λ t, (id t, text t)) (tasks_of (tasks tm4) 7) = [(2, "B"); (2, "C")]
  ∧ map (λ t, (id t, text t)) (remove_first_id 2 (tasks_of (tasks tm4) 7))
    = [(2, "C")]
  ∧ delete_task tm4 7 2 = (mkTM {[7 := []]} (saves tm4 ++ [{[7 := []]}]), true)
  ∧ tasks_of (tasks (fst (delete_task tm4 7 2))) 7
    ≠ remove_first_id 2 (tasks_of (tasks tm4) 7).
Proof.
  repeat split; try (vm_compute; reflexivity).
  vm_compute. discriminate.
Qed.

(** C3.  [complete_task] reports success exactly when a task of the user has
    the id.  On success the first task with the id is the one marked: its
    [completed] is true afterwards, nothing else in the list changes, and
    the store is saved.  A task that was completed stays completed, so asking
    again for a completed task succeeds and toggles nothing. *)
Theorem complete_task_success_iff_present :
  ∀ tm u i,
    let r := complete_task tm u i in
    let old := tasks_of (tasks tm) u in
    let new := tasks_of (tasks (fst r)) u in
    (snd r = true ↔ ∃ t, t ∈ old ∧ id t = i)
    ∧ (snd r = true →
       ∃ k t, old !! k = Some t ∧ id t = i
         ∧ (∀ j t', (j < k)%nat → old !! j = Some t' → id t' ≠ i)
         ∧ new = <[k := mkTask (id t) (text t) (priority t) (created_at t)
                               true (reminder t)]> old
         ∧ (∃ t', new !! k = Some t' ∧ id t' = i ∧ completed t' = true)
         ∧ saves (fst r) = saves tm ++ [tasks (fst r)])
    ∧ (∀ k t, old !! k = Some t → completed t = true → new !! k = Some t)
    ∧ (∀ t, t ∈ old → id t = i → completed t = true →
         snd r = true ∧ t ∈ new).
Proof.
  intros tm u i r old new.
  assert (∀ k t, old !! k = Some t → completed t = true → new !! k = Some t)
    as Hmono.
  { intros k t Hk Ht. subst new r. rewrite complete_task_unfold.
    destruct (complete_first _ _) as [l'|] eqn:E; simpl.
    - rewrite tasks_of_insert_eq.
      apply complete_first_Some in E as (k' & t' & Hk' & Hid & _ & ->).
      destruct (decide (k' = k)) as [->|Hne].
      + fold old in Hk'. rewrite Hk in Hk'. injection Hk' as <-.
        rewrite list_lookup_insert_eq by (by eapply lookup_lt_Some).
        f_equal. destruct t; simpl in *; by subst.
      + by rewrite list_lookup_insert_ne.
    - by rewrite tasks_of_materialize. }
  assert (snd r = true ↔ ∃ t, t ∈ old ∧ id t = i) as Hiff.
  { subst r old. rewrite complete_task_unfold.
    destruct (complete_first _ _) as [l'|] eqn:E; simpl.
    - split; [intros _ | done].
      apply complete_first_Some in E as (k & t & Hk & Hid & _).
      exists t. split; [by eapply list_elem_of_lookup_2 | done].
    - split; [done | intros (t & Ht & Hid)].
      exfalso. by eapply complete_first_None. }
  split; [done|]. split; [|split; [done|]].
  - subst new r old. rewrite complete_task_unfold.
    destruct (complete_first _ _) as [l'|] eqn:E; simpl; [intros _ | done].
    rewrite tasks_of_insert_eq.
    apply complete_first_Some in E as (k & t & Hk & Hid & Hfirst & ->).
    exists k, t. repeat split; try done.
    eexists. split; [apply list_lookup_insert_eq; by eapply lookup_lt_Some|done].
  - intros t Ht Hid Hc. split; [apply Hiff; eauto|].
    apply list_elem_of_lookup in Ht as [k Hk].
    eapply list_elem_of_lookup_2. by apply Hmono.
Qed.

Lemma complete_task_success_iff_present_witness :
  let t1 := mkTask 1 "A" (Some HIGH) "t0" false None in
  let t2 := mkTask 2 "B" (Some LOW) "t0" true None in
  let tm := mkTM {[7 := [t1; t2]]} [] in
  snd (complete_task tm 7 2) = true
  ∧ t2 ∈ tasks_of (tasks (fst (complete_task tm 7 2))) 7.
Proof.
  intros t1 t2 tm.
  apply (proj2 (proj2 (proj2 (complete_task_success_iff_present tm 7 2))) t2).
  - vm_compute. in_list.
  - reflexivity.
  - reflexivity.
Defined.

(** C4, as the code has it.  For an id no task of the user has, both
    [complete_task] and [delete_task] return not-found and call
    [_save_tasks] not at all; every user's list reads as before, and no
    entry of the mapping changes except the user's own when it was missing:
    [get_user_tasks] then leaves an empty entry for the user. *)
Theorem not_found_keeps_every_list :
  ∀ tm u i,
    (∀ t, t ∈ tasks_of (tasks tm) u → id t ≠ i) →
    ∀ r, r = complete_task tm u i ∨ r = delete_task tm u i →
      snd r = false
      ∧ saves (fst r) = saves tm
      ∧ (∀ v, tasks_of (tasks (fst r)) v = tasks_of (tasks tm) v)
      ∧ (∀ v, v ≠ u → tasks (fst r) !! v = tasks tm !! v)
      ∧ (is_Some (tasks tm !! u) → tasks (fst r) = tasks tm)
      ∧ (tasks tm !! u = None → tasks (fst r) = <[u := []]> (tasks tm)).
Proof.
  intros tm u i Hno r Hr.
  assert (r = (with_tasks tm (<[u := tasks_of (tasks tm) u]> (tasks tm)), false))
    as ->.
  { destruct Hr as [-> | ->].
    - rewrite complete_task_unfold.
      by rewrite (proj2 (complete_first_None _ _) Hno).
    - apply injective_projections.
      + simpl. destruct tm as [st sv]. unfold with_tasks; simpl.
        pose proof (delete_task_saves (mkTM st sv) u i) as Hs.
        pose proof (delete_task_tasks (mkTM st sv) u i) as Ht.
        pose proof (delete_task_snd (mkTM st sv) u i) as Hb.
        simpl in *. rewrite without_id_no_match in Ht, Hb by done.
        rewrite Nat.ltb_irrefl in Hb. rewrite Hb in Hs.
        destruct (fst (delete_task _ _ _)); simpl in *. by subst.
      + simpl. rewrite delete_task_snd, without_id_no_match by done.
        apply Nat.ltb_irrefl. }
  simpl. split; [done|]. split; [done|].
  split; [intros v; apply tasks_of_materialize|].
  split; [intros v Hv; by rewrite lookup_insert_ne|].
  split.
  - intros [l Hl]. unfold tasks_of. rewrite Hl. simpl. by apply insert_id.
  - intros Hn. unfold tasks_of. by rewrite Hn.
Qed.

Lemma not_found_keeps_every_list_witness :
  let tm := mkTM {[7 := [mkTask 1 "A" (Some HIGH) "t0" false None]]} [] in
  snd (delete_task tm 7 5) = false
  ∧ saves (fst (delete_task tm 7 5)) = saves tm
  ∧ (∀ v, tasks_of (tasks (fst (delete_task tm 7 5))) v = tasks_of (tasks tm) v)
  ∧ (∀ v, v ≠ 7 → tasks (fst (delete_task tm 7 5)) !! v = tasks tm !! v)
  ∧ (is_Some (tasks tm !! 7) → tasks (fst (delete_task tm 7 5)) = tasks tm)
  ∧ (tasks tm !! 7 = None
     → tasks (fst (delete_task tm 7 5)) = <[7 := []]> (tasks tm)).
Proof.
  intros tm.
  apply (not_found_keeps_every_list tm 7 5); [|by right].
  intros t Ht. vm_compute in Ht.
  apply list_elem_of_singleton in Ht as ->. discriminate.
Defined.

(** C4, the sentence of the specification refuted.  A user with no entry in
    the store asks for an id: both methods answer not-found and save nothing,
    yet the mapping has gained the user's empty entry. *)
Lemma not_found_materializes_entry :
  let tm := mkTM ∅ [] in
  (∀ t, t ∈ tasks_of (tasks tm) 7 → id t ≠ 1)
  ∧ complete_task tm 7 1 = (mkTM {[7 := []]} [], false)
  ∧ delete_task tm 7 1 = (mkTM {[7 := []]} [], false)
  ∧ tasks (fst (complete_task tm 7 1)) ≠ tasks tm
  ∧ tasks (fst (delete_task tm 7 1)) ≠ tasks tm.
Proof.
  repeat split; try (vm_compute; reflexivity).
  - intros t Ht. inversion Ht.
  - intros H. apply (f_equal (λ m, m !! 7)) in H. vm_compute in H. discriminate.
  - intros H. apply (f_equal (λ m, m !! 7)) in H. vm_compute in H. discriminate.
Qed.

(** ** Buckets *)

Lemma categorize_lookup d t p :
  categorize d t !! p = (λ b, b ++ List.filter (in_bucket p) [t]) <$> d !! p.
Proof.
  unfold categorize, in_bucket. simpl.
  destruct (completed t); simpl.
  - destruct (d !! p); simpl; by rewrite ?app_nil_r.
  - destruct (d !! default MEDIUM (priority t)) as [b0|] eqn:E.
    + rewrite lookup_insert. case_decide as Hp.
      * subst p. rewrite E. simpl. by rewrite bool_decide_eq_true_2.
      * rewrite bool_decide_eq_false_2 by done.
        destruct (d !! p); simpl; by rewrite ?app_nil_r.
    + case_bool_decide as Hp.
      * subst p. by rewrite E.
      * destruct (d !! p); simpl; by rewrite ?app_nil_r.
Qed.

Lemma fold_categorize_lookup l d p :
  fold_left categorize l d !! p
  = (λ b, b ++ List.filter (in_bucket p) l) <$> d !! p.
Proof.
  revert d. induction l as [|t r IH]; intros d; simpl.
  - destruct (d !! p); simpl; by rewrite ?app_nil_r.
  - rewrite IH, categorize_lookup.
    destruct (d !! p); simpl; [|done].
    f_equal. rewrite <- app_assoc. f_equal.
    by destruct (in_bucket p t).
Qed.

Lemma empty_buckets_lookup p :
  empty_buckets !! p = if bool_decide (p ∈ PRIORITIES) then Some [] else None.
Proof.
  unfold empty_buckets, PRIORITIES. simpl.
  case_bool_decide as H.
  - repeat (apply elem_of_cons in H as [H|H]); [..|inversion H];
      subst p; reflexivity.
  - rewrite !lookup_insert_ne, lookup_empty; [done|..];
      intros Heq; apply H; rewrite <- Heq; in_list.
Qed.

Lemma buckets_lookup tm u p :
  snd (get_tasks_by_priority tm u) !! p
  = if bool_decide (p ∈ PRIORITIES)
    then Some (List.filter (in_bucket p) (tasks_of (tasks tm) u))
    else None.
Proof.
  unfold get_tasks_by_priority. rewrite get_user_tasks_eq. simpl.
  rewrite fold_categorize_lookup, empty_buckets_lookup.
  by case_bool_decide.
Qed.

Lemma filter_sublist (f : Task → bool) l : List.filter f l `sublist_of` l.
Proof.
  induction l as [|t r IH]; simpl; [constructor|].
  destruct (f t); by constructor.
Qed.

Lemma elem_of_bool_filter (f : Task → bool) l t :
  t ∈ List.filter f l ↔ t ∈ l ∧ f t = true.
Proof. rewrite !list_elem_of_In. apply filter_In. Qed.

Lemma in_bucket_true p t :
  in_bucket p t = true ↔ completed t = false ∧ default MEDIUM (priority t) = p.
Proof.
  unfold in_bucket. rewrite andb_true_iff, negb_true_iff, bool_decide_eq_true.
  done.
Qed.

(** C5.  [get_tasks_by_priority] returns a dictionary with exactly the three
    priorities as keys; the bucket of a priority is the user's list filtered
    to the incomplete tasks of that priority, so it holds no completed task
    and keeps the order of the list. *)
Theorem buckets_are_three_and_incomplete :
  ∀ tm u,
    let r := snd (get_tasks_by_priority tm u) in
    let l := tasks_of (tasks tm) u in
    dom r = ({[HIGH; MEDIUM; LOW]} : gset string)
    ∧ size r = 3%nat
    ∧ (∀ p, p ∈ PRIORITIES → r !! p = Some (List.filter (in_bucket p) l))
    ∧ (∀ p b t, r !! p = Some b → t ∈ b →
         completed t = false ∧ t ∈ l ∧ default MEDIUM (priority t) = p)
    ∧ (∀ t, completed t = true → ∀ p b, r !! p = Some b → t ∉ b)
    ∧ (∀ p b, r !! p = Some b → b `sublist_of` l).
Proof.
  intros tm u r l.
  assert (dom r = ({[HIGH; MEDIUM; LOW]} : gset string)) as Hdom.
  { apply set_eq. intros p. rewrite elem_of_dom. subst r.
    rewrite buckets_lookup, priorities_set.
    case_bool_decide as H; [by eauto|].
    split; [by intros [? ?] | done]. }
  assert (∀ p b, r !! p = Some b → b = List.filter (in_bucket p) l) as Hb.
  { intros p b. subst r. rewrite buckets_lookup.
    case_bool_decide; [by intros [= <-] | done]. }
  split; [done|]. split.
  { rewrite <- size_dom, Hdom. reflexivity. }
  split.
  { intros p Hp. subst r. rewrite buckets_lookup.
    by rewrite bool_decide_eq_true_2. }
  split.
  { intros p b t Hp Ht. apply Hb in Hp as ->.
    apply elem_of_bool_filter in Ht as [Ht Hin].
    apply in_bucket_true in Hin as [? ?]. done. }
  split.
  { intros t Hc p b Hp Ht. apply Hb in Hp as ->.
    apply elem_of_bool_filter in Ht as [_ Hin].
    apply in_bucket_true in Hin as [? _]. congruence. }
  intros p b Hp. apply Hb in Hp as ->. apply filter_sublist.
Qed.

Lemma buckets_are_three_and_incomplete_witness :
  let t3 := mkTask 3 "C" (Some HIGH) "t0" true None in
  let t4 := mkTask 4 "D" (Some HIGH) "t0" false None in
  completed t4 = false ∧ t4 ∈ [t3; t4] ∧ default MEDIUM (priority t4) = HIGH.
Proof.
  intros t3 t4.
  pose proof (proj1 (proj2 (proj2 (proj2
    (buckets_are_three_and_incomplete (mkTM {[7 := [t3; t4]]} []) 7))))
    HIGH [t4] t4) as H.
  apply H.
  - vm_compute. reflexivity.
  - in_list.
Defined.

(** C10.  An incomplete task whose stored priority is none of the three
    labels is in no bucket; an incomplete task without the priority key is
    in the bucket of [MEDIUM], and in no other. *)
Theorem odd_priority_dropped_missing_is_medium :
  ∀ tm u t,
    t ∈ tasks_of (tasks tm) u → completed t = false →
    let r := snd (get_tasks_by_priority tm u) in
    (∀ q, priority t = Some q → q ∉ PRIORITIES →
       ∀ p b, r !! p = Some b → t ∉ b)
    ∧ (priority t = None →
       (∃ b, r !! MEDIUM = Some b ∧ t ∈ b)
       ∧ ∀ p b, p ≠ MEDIUM → r !! p = Some b → t ∉ b).
Proof.
  intros tm u t Ht Hc r.
  assert (∀ p b, r !! p = Some b → t ∈ b →
            p ∈ PRIORITIES ∧ default MEDIUM (priority t) = p) as Hin.
  { intros p b. subst r. rewrite buckets_lookup.
    case_bool_decide as Hp; [|done]. intros [= <-] Hb.
    apply elem_of_bool_filter in Hb as [_ Hb].
    apply in_bucket_true in Hb as [_ Hb]. done. }
  split.
  - intros q Hq Hno p b Hp Hb.
    destruct (Hin p b Hp Hb) as [Hpp Hpq].
    rewrite Hq in Hpq. simpl in Hpq. by subst q.
  - intros Hnone. split.
    + eexists. split.
      * subst r. rewrite buckets_lookup.
        rewrite bool_decide_eq_true_2 by (unfold PRIORITIES; in_list). done.
      * apply elem_of_bool_filter. split; [done|].
        apply in_bucket_true. by rewrite Hnone.
    + intros p b Hne Hp Hb.
      destruct (Hin p b Hp Hb) as [_ Hpq].
      rewrite Hnone in Hpq. simpl in Hpq. congruence.
Qed.

Lemma odd_priority_dropped_missing_is_medium_witness :
  let t1 := mkTask 1 "A" (Some "urgent") "t0" false None in
  let t2 := mkTask 2 "B" None "t0" false None in
  let r := snd (get_tasks_by_priority (mkTM {[7 := [t1; t2]]} []) 7) in
  ((∀ q, priority t1 = Some q → q ∉ PRIORITIES →
      ∀ p b, r !! p = Some b → t1 ∉ b)
   ∧ (priority t1 = None →
      (∃ b, r !! MEDIUM = Some b ∧ t1 ∈ b)
      ∧ ∀ p b, p ≠ MEDIUM → r !! p = Some b → t1 ∉ b))
  ∧ ((∀ q, priority t2 = Some q → q ∉ PRIORITIES →
      ∀ p b, r !! p = Some b → t2 ∉ b)
   ∧ (priority t2 = None →
      (∃ b, r !! MEDIUM = Some b ∧ t2 ∈ b)
      ∧ ∀ p b, p ≠ MEDIUM → r !! p = Some b → t2 ∉ b)).
Proof.
  intros t1 t2 r. split.
  - apply (odd_priority_dropped_missing_is_medium
             (mkTM {[7 := [t1; t2]]} []) 7 t1); [|reflexivity].
    vm_compute. left.
  - apply (odd_priority_dropped_missing_is_medium
             (mkTM {[7 := [t1; t2]]} []) 7 t2); [|reflexivity].
    vm_compute. right. left.
Defined.

Example buckets_sample :
  let t1 := mkTask 1 "A" (Some "urgent") "t0" false None in
  let t2 := mkTask 2 "B" None "t0" false None in
  let t3 := mkTask 3 "C" (Some HIGH) "t0" true None in
  let t4 := mkTask 4 "D" (Some HIGH) "t0" false None in
  snd (get_tasks_by_priority (mkTM {[7 := [t1; t2; t3; t4]]} []) 7)
  = {[HIGH := [t4]; MEDIUM := [t2]; LOW := []]}.
Proof. vm_compute. reflexivity. Qed.

(** ** Dispatch and the session invariant *)

Section Session.

Variable strftime : Z → string.
Variable int : string → option Z.

Abbreviation process := (process_update strftime int).
Abbreviation after := (run_updates strftime int).

Lemma select_text st s :
  select st (Text s)
  = match st with
    | Some ADD_TASK => Some (cb_add_task_text, true)
    | Some SET_PRIORITY => Some (cb_set_priority, true)
    | Some SET_REMINDER => Some (cb_set_reminder, true)
    | Some CHOOSING_ACTION | None => Some (cb_handle_task_action, false)
    end.
Proof. by destruct st as [[]|]. Qed.

Lemma select_add st :
  select st (Command "add")
  = match st with None => Some (cb_add_task_start, true) | Some _ => None end.
Proof. by destruct st as [[]|]. Qed.

Lemma select_cancel st :
  select st (Command "cancel")
  = Some (cb_cancel, match st with None => false | Some _ => true end).
Proof. by destruct st as [[]|]. Qed.

(** A command other than [/add] and [/cancel] never reaches a callback of
    the conversation. *)
Lemma select_other_command st c :
  c ≠ "add" → c ≠ "cancel" →
  select st (Command c) = None
  ∨ ∃ cb, select st (Command c) = Some (cb, false)
          ∧ cb ∈ [cb_start; cb_help_command; cb_list_tasks; cb_complete_task;
                  cb_delete_task].
Proof.
  intros Hadd Hcancel. unfold select, command_handler. simpl.
  repeat (case_bool_decide;
          [try contradiction; right; eexists; split; [done|]; in_list|]).
  assert (conversation_check st (Command c) = None) as ->.
  { destruct st as [[]|]; simpl; by rewrite ?bool_decide_eq_false_2. }
  repeat (case_bool_decide;
          [try contradiction; right; eexists; split; [done|]; in_list|]).
  rewrite bool_decide_eq_false_2 by done. by left.
Qed.

Lemma process_update_other b u v :
  v ≠ effective_user u →
  conversations (fst (process b u)) !! v = conversations b !! v
  ∧ user_data_of (fst (process b u)) v = user_data_of b v.
Proof.
  intros Hv. unfold process_update.
  destruct (select _ _) as [[cb inconv]|]; [|done].
  destruct (run _ _ _ _ _ _) as [o|]; [|done]. simpl.
  unfold user_data_of; simpl. rewrite lookup_insert_ne by done.
  split; [|done].
  destruct inconv; [|done].
  destruct (out_ret o) as [[s|]|]; simpl;
    by rewrite ?lookup_insert_ne, ?lookup_delete_ne.
Qed.

(** The callbacks outside the conversation leave the draft alone. *)
Lemma run_keeps_draft cb tm ud u o :
  cb ∈ [cb_start; cb_help_command; cb_list_tasks; cb_complete_task;
        cb_delete_task; cb_handle_task_action] →
  run strftime int cb tm ud u = Some o →
  task_text (out_ud o) = task_text ud
  ∧ task_priority (out_ud o) = task_priority ud.
Proof.
  intros Hcb.
  repeat (apply elem_of_cons in Hcb as [->|Hcb]); [..|inversion Hcb];
    simpl; intros [= <-]; try done.
  - unfold Handlers.list_tasks.
    destruct (get_tasks_by_priority _ _) as [tm1 d].
    case_match; [done|]. by destruct (get_user_tasks _ _).
  - unfold Handlers.complete_task.
    destruct (get_user_tasks _ _) as [tm1 l]. by case_match.
  - unfold Handlers.delete_task.
    destruct (get_user_tasks _ _) as [tm1 l]. by case_match.
  - unfold Handlers.handle_task_action.
    destruct (int _); [|done].
    destruct (awaiting_complete ud).
    { by destruct (complete_task _ _ _). }
    destruct (awaiting_delete ud); [|done].
    by destruct (delete_task _ _ _).
Qed.

Lemma user_data_of_insert tm m c v ud :
  user_data_of (mkBot tm (<[v := ud]> m) c) v = ud.
Proof. unfold user_data_of; simpl. by rewrite lookup_insert_eq. Qed.

Lemma process_update_inv b u :
  session_inv b → session_inv (fst (process b u)).
Proof.
  intros Hinv v.
  destruct (decide (v = effective_user u)) as [->|Hv].
  2: { destruct (process_update_other b u v Hv) as [-> ->]. apply Hinv. }
  specialize (Hinv (effective_user u)).
  unfold process_update.
  destruct (conversations b !! effective_user u) as [st|] eqn:Hst.
  - (* a dialogue is open *)
    destruct (message u) as [c|s] eqn:Hm.
    + destruct (decide (c = "add")) as [->|Hadd].
      { rewrite select_add. simpl. by rewrite Hst. }
      destruct (decide (c = "cancel")) as [->|Hcancel].
      { rewrite select_cancel. simpl.
        by rewrite user_data_of_insert, lookup_delete_eq. }
      destruct (select_other_command (Some st) c)
        as [-> | (cb & -> & Hcb)]; [done..| |].
      { simpl. by rewrite Hst. }
      destruct (run _ _ _ _ _ _) as [o|] eqn:Hrun; simpl; [|by rewrite Hst].
      rewrite user_data_of_insert, Hst.
      apply run_keeps_draft in Hrun as [Ht Hp].
      2: { repeat (apply elem_of_cons in Hcb as [->|Hcb]); [..|inversion Hcb];
           in_list. }
      unfold draft_ok in *. by rewrite Ht, Hp.
    + rewrite select_text. destruct st; try done; simpl; rewrite ?Hm; simpl.
      * rewrite user_data_of_insert, lookup_insert_eq. simpl.
        destruct Hinv as [_ ->]. eauto.
      * unfold Handlers.set_priority.
        case_bool_decide; simpl;
          rewrite user_data_of_insert, lookup_insert_eq; simpl.
        -- split; [apply Hinv | eauto].
        -- done.
      * destruct Hinv as [[t Ht] [p Hp]].
        unfold Handlers.set_reminder. rewrite Ht, Hp. simpl.
        by rewrite user_data_of_insert, lookup_delete_eq.
  - (* no dialogue *)
    destruct (message u) as [c|s] eqn:Hm.
    + destruct (decide (c = "add")) as [->|Hadd].
      { rewrite select_add. simpl.
        by rewrite user_data_of_insert, lookup_insert_eq. }
      destruct (decide (c = "cancel")) as [->|Hcancel].
      { rewrite select_cancel. simpl.
        by rewrite user_data_of_insert, Hst. }
      destruct (select_other_command None c)
        as [-> | (cb & -> & Hcb)]; [done..| |].
      { simpl. by rewrite Hst. }
      destruct (run _ _ _ _ _ _) as [o|] eqn:Hrun; simpl; [|by rewrite Hst].
      rewrite user_data_of_insert, Hst.
      apply run_keeps_draft in Hrun as [Ht Hp].
      2: { repeat (apply elem_of_cons in Hcb as [->|Hcb]); [..|inversion Hcb];
           in_list. }
      unfold draft_ok in *. by rewrite Ht, Hp.
    + rewrite select_text. simpl.
      destruct (Handlers.handle_task_action _ _ _ _ _) as [tm' ud' r' rs] eqn:Ho.
      simpl. rewrite user_data_of_insert, Hst.
      destruct (run_keeps_draft cb_handle_task_action (task_manager b)
                  (user_data_of b (effective_user u)) u
                  (mkOut tm' ud' r' rs)) as [Ht Hp]; [in_list | |].
      { simpl. by rewrite Ho. }
      simpl in *. by rewrite Ht, Hp.
Qed.

Lemma run_updates_inv b us : session_inv b → session_inv (after b us).
Proof.
  revert b. induction us as [|u us IH]; intros b Hb; [done|].
  simpl. apply IH. by apply process_update_inv.
Qed.

Lemma boot_inv st : session_inv (boot st).
Proof. intros v. by unfold boot, user_data_of; simpl; rewrite !lookup_empty. Qed.

Lemma reachable_inv st us : session_inv (after (boot st) us).
Proof. apply run_updates_inv, boot_inv. Qed.

(** What an accepted update leaves, read off the outcome of its callback. *)
Lemma process_update_run b u cb inconv o :
  select (conversations b !! effective_user u) (message u) = Some (cb, inconv) →
  run strftime int cb (task_manager b) (user_data_of b (effective_user u)) u
  = Some o →
  task_manager (fst (process b u)) = out_tm o
  ∧ user_data_of (fst (process b u)) (effective_user u) = out_ud o
  ∧ conversations (fst (process b u)) !! effective_user u
    = (if inconv then
         match out_ret o with
         | Some END => None
         | Some (Next s) => Some s
         | None => conversations b !! effective_user u
         end
       else conversations b !! effective_user u)
  ∧ snd (process b u) = out_replies o.
Proof.
  intros Hsel Hrun. unfold process_update. rewrite Hsel, Hrun. simpl.
  rewrite user_data_of_insert. repeat split; try done.
  destruct inconv; [|done].
  destruct (out_ret o) as [[s|]|]; simpl;
    by rewrite ?lookup_insert_eq, ?lookup_delete_eq.
Qed.

(** The four steps of the creation dialogue. *)
Lemma step_add b user n1 n2 :
  conversations b !! user = None →
  let b1 := fst (process b (mkUpdate user (Command "add") n1 n2)) in
  task_manager b1 = task_manager b
  ∧ user_data_of b1 user = user_data_of b user
  ∧ conversations b1 !! user = Some ADD_TASK.
Proof.
  intros Hconv.
  destruct (process_update_run b (mkUpdate user (Command "add") n1 n2)
              cb_add_task_start true
              (Handlers.add_task_start (task_manager b) (user_data_of b user)))
    as (Htm & Hud & Hc & _); [|done..].
  cbn [effective_user message]. by rewrite Hconv, select_add.
Qed.

Lemma step_text b user txt n1 n2 :
  conversations b !! user = Some ADD_TASK →
  let b1 := fst (process b (mkUpdate user (Text txt) n1 n2)) in
  task_manager b1 = task_manager b
  ∧ user_data_of b1 user
    = mkUD (Some txt) (task_priority (user_data_of b user))
           (awaiting_complete (user_data_of b user))
           (awaiting_delete (user_data_of b user))
  ∧ conversations b1 !! user = Some SET_PRIORITY.
Proof.
  intros Hconv.
  destruct (process_update_run b (mkUpdate user (Text txt) n1 n2)
              cb_add_task_text true
              (Handlers.add_task_text (task_manager b) (user_data_of b user) txt))
    as (Htm & Hud & Hc & _); [|done..].
  cbn [effective_user message]. by rewrite Hconv, select_text.
Qed.

Lemma step_priority b user prio n1 n2 :
  conversations b !! user = Some SET_PRIORITY →
  prio ∈ PRIORITIES →
  let b1 := fst (process b (mkUpdate user (Text prio) n1 n2)) in
  task_manager b1 = task_manager b
  ∧ user_data_of b1 user
    = mkUD (task_text (user_data_of b user)) (Some prio)
           (awaiting_complete (user_data_of b user))
           (awaiting_delete (user_data_of b user))
  ∧ conversations b1 !! user = Some SET_REMINDER.
Proof.
  intros Hconv Hprio.
  destruct (process_update_run b (mkUpdate user (Text prio) n1 n2)
              cb_set_priority true
              (Handlers.set_priority (task_manager b) (user_data_of b user) prio))
    as (Htm & Hud & Hc & _); [|done|].
  { cbn [effective_user message]. by rewrite Hconv, select_text. }
  unfold Handlers.set_priority in Htm, Hud, Hc.
  rewrite bool_decide_eq_true_2 in Htm, Hud, Hc by done. done.
Qed.

Lemma step_reminder b user label n1 n2 dtext dprio :
  conversations b !! user = Some SET_REMINDER →
  task_text (user_data_of b user) = Some dtext →
  task_priority (user_data_of b user) = Some dprio →
  let r := process b (mkUpdate user (Text label) n1 n2) in
  let a := add_task strftime (task_manager b) user dtext dprio
             (reminder_time strftime label n1) n2 in
  task_manager (fst r) = fst a
  ∧ user_data_of (fst r) user = cleared
  ∧ conversations (fst r) !! user = None
  ∧ snd r = [RCreated (snd a) (reminder_time strftime label n1)].
Proof.
  intros Hconv Ht Hp r a.
  destruct (process_update_run b (mkUpdate user (Text label) n1 n2)
              cb_set_reminder true
              (mkOut (fst a) cleared (Some END)
                     [RCreated (snd a) (reminder_time strftime label n1)]))
    as (Htm & Hud & Hc & Hrep); [| |done].
  { cbn [effective_user message]. by rewrite Hconv, select_text. }
  cbn [run effective_user message message_text now1 now2].
  unfold Handlers.set_reminder. by rewrite Ht, Hp.
Qed.

End Session.

Lemma reminder_offset_labels :
  reminder_offset "Через 1 час" = Some 3600
  ∧ reminder_offset "Через 3 часа" = Some 10800
  ∧ reminder_offset "Завтра" = Some 86400
  ∧ reminder_offset "Через неделю" = Some 604800
  ∧ ∀ txt, txt ∉ ["Через 1 час"; "Через 3 часа"; "Завтра"; "Через неделю"] →
      reminder_offset txt = None.
Proof.
  repeat split; try reflexivity.
  intros txt Hno. unfold reminder_offset.
  rewrite !bool_decide_eq_false_2
    by (intros ->; apply Hno;
        repeat (first [by apply list_elem_of_here | apply list_elem_of_further])).
  done.
Qed.

(** C9.  [/cancel] empties the user's session data, the draft and both
    pending-action flags alike, whether a dialogue is open or not; no
    dialogue is open afterwards, the task manager is the same, and the
    sessions of other users are not touched. *)
Theorem cancel_resets_session :
  ∀ (strftime : Z → string) (int : string → option Z) b user n1 n2,
    let r := process_update strftime int b
               (mkUpdate user (Command "cancel") n1 n2) in
    let ud' := user_data_of (fst r) user in
    ud' = cleared
    ∧ task_text ud' = None ∧ task_priority ud' = None
    ∧ awaiting_complete ud' = false ∧ awaiting_delete ud' = false
    ∧ conversations (fst r) !! user = None
    ∧ task_manager (fst r) = task_manager b
    ∧ snd r = [RCancelled]
    ∧ (∀ v, v ≠ user →
         conversations (fst r) !! v = conversations b !! v
         ∧ user_data_of (fst r) v = user_data_of b v).
Proof.
  intros strftime int b user n1 n2 r ud'.
  destruct (process_update_run strftime int b
              (mkUpdate user (Command "cancel") n1 n2) cb_cancel
              (match conversations b !! user with None => false | Some _ => true end)
              (Handlers.cancel (task_manager b) (user_data_of b user)))
    as (Htm & Hud & Hconv & Hrep).
  { simpl. apply select_cancel. }
  { done. }
  simpl in *. fold r in Htm, Hud, Hconv, Hrep.
  assert (ud' = cleared) as Hc by done.
  rewrite Hc. repeat split; try done.
  - rewrite Hconv. by destruct (conversations b !! user) eqn:E.
  - by apply (process_update_other strftime int b
                (mkUpdate user (Command "cancel") n1 n2) v).
  - by apply (process_update_other strftime int b
                (mkUpdate user (Command "cancel") n1 n2) v).
Qed.

Lemma cancel_resets_session_witness :
  let b := mkBot (mkTM ∅ [])
             {[7 := mkUD (Some "A") None true true; 8 := mkUD None None true false]}
             {[7 := SET_PRIORITY]} in
  let r := process_update show_seconds int_ascii b
             (mkUpdate 7 (Command "cancel") 0 0) in
  conversations (fst r) !! 8 = conversations b !! 8
  ∧ user_data_of (fst r) 8 = user_data_of b 8.
Proof.
  intros b r.
  apply (proj2 (proj2 (proj2 (proj2 (proj2 (proj2 (proj2 (proj2
    (cancel_resets_session show_seconds int_ascii b 7 0 0))))))))).
  discriminate.
Defined.

(** C7.  [handle_task_action] parses the message with [int].  When that
    fails, nothing changes and the flags stay as they were.  When it yields
    an id, the method of the flag that is set is called on the task manager,
    [complete_task] having precedence, and that flag is cleared whatever the
    method returned.  Outside a dialogue every text message is routed to
    this callback. *)
Theorem pending_action_resolution :
  ∀ (strftime : Z → string) (int : string → option Z) tm ud user txt,
    let o := Handlers.handle_task_action int tm ud user txt in
    (int txt = None → o = mkOut tm ud None [RBadNumber])
    ∧ (∀ i, int txt = Some i → awaiting_complete ud = true →
         out_tm o = fst (complete_task tm user i)
         ∧ out_ud o = mkUD (task_text ud) (task_priority ud) false
                           (awaiting_delete ud)
         ∧ out_replies o = [if snd (complete_task tm user i)
                            then RCompleted i else RNotFound i])
    ∧ (∀ i, int txt = Some i → awaiting_complete ud = false →
         awaiting_delete ud = true →
         out_tm o = fst (delete_task tm user i)
         ∧ out_ud o = mkUD (task_text ud) (task_priority ud) false false
         ∧ out_replies o = [if snd (delete_task tm user i)
                            then RDeleted i else RNotFound i])
    ∧ (∀ b n1 n2,
         conversations b !! user = None →
         task_manager b = tm → user_data_of b user = ud →
         let r := process_update strftime int b
                    (mkUpdate user (Text txt) n1 n2) in
         task_manager (fst r) = out_tm o
         ∧ user_data_of (fst r) user = out_ud o
         ∧ conversations (fst r) !! user = None
         ∧ snd r = out_replies o).
Proof.
  intros strftime int tm ud user txt o.
  split; [|split; [|split]].
  - subst o. unfold Handlers.handle_task_action. by intros ->.
  - subst o. unfold Handlers.handle_task_action.
    intros i -> ->. by destruct (complete_task tm user i).
  - subst o. unfold Handlers.handle_task_action.
    intros i -> Hc ->. rewrite Hc. destruct (delete_task tm user i).
    unfold Handlers.pop_awaiting_delete. by rewrite Hc.
  - intros b n1 n2 Hconv Htm Hud r.
    destruct (process_update_run strftime int b
                (mkUpdate user (Text txt) n1 n2) cb_handle_task_action false o)
      as (H1 & H2 & H3 & H4).
    { simpl. by rewrite Hconv. }
    { simpl. by rewrite Htm, Hud. }
    simpl in H3. by rewrite Hconv in H3.
Qed.

Lemma pending_action_resolution_witness :
  let tm := mkTM {[7 := [mkTask 1 "A" (Some HIGH) "t0" false None]]} [] in
  let ud := mkUD None None true false in
  let o := Handlers.handle_task_action int_ascii tm ud 7 "1" in
  out_tm o = fst (complete_task tm 7 1)
  ∧ out_ud o = mkUD None None false false
  ∧ out_replies o = [if snd (complete_task tm 7 1)
                     then RCompleted 1 else RNotFound 1].
Proof.
  intros tm ud o.
  apply (proj1 (proj2
    (pending_action_resolution show_seconds int_ascii tm ud 7 "1")) 1);
    reflexivity.
Defined.

(** C6.  In every state the bot can reach, when the user's dialogue is at
    [SET_REMINDER] the draft holds a text and a priority, and any text
    message ends the dialogue with a task made of them: the reminder is the
    formatted clock reading plus the offset when the message is one of the
    four timed labels, and [None] for every other message; the session data
    is cleared and the store is saved. *)
Theorem reminder_step_always_creates :
  ∀ (strftime : Z → string) (int : string → option Z) st us user txt n1 n2,
    let b := run_updates strftime int (boot st) us in
    conversations b !! user = Some SET_REMINDER →
    let r := process_update strftime int b (mkUpdate user (Text txt) n1 n2) in
    let rem := reminder_time strftime txt n1 in
    let old := tasks_of (tasks (task_manager b)) user in
    ∃ dtext dprio,
      task_text (user_data_of b user) = Some dtext
      ∧ task_priority (user_data_of b user) = Some dprio
      ∧ tasks_of (tasks (task_manager (fst r))) user
        = old ++ [mkTask (Z.of_nat (length old) + 1) dtext (Some dprio)
                         (strftime n2) false rem]
      ∧ saves (task_manager (fst r))
        = saves (task_manager b) ++ [tasks (task_manager (fst r))]
      ∧ user_data_of (fst r) user = cleared
      ∧ conversations (fst r) !! user = None
      ∧ snd r = [RCreated (mkTask (Z.of_nat (length old) + 1) dtext (Some dprio)
                                  (strftime n2) false rem) rem]
      ∧ (txt = "Через 1 час" → rem = Some (strftime (n1 + 3600)))
      ∧ (txt = "Через 3 часа" → rem = Some (strftime (n1 + 3 * 3600)))
      ∧ (txt = "Завтра" → rem = Some (strftime (n1 + 86400)))
      ∧ (txt = "Через неделю" → rem = Some (strftime (n1 + 7 * 86400)))
      ∧ (txt ∉ ["Через 1 час"; "Через 3 часа"; "Завтра"; "Через неделю"] →
         rem = None).
Proof.
  intros strftime int st us user txt n1 n2 b Hconv r rem old.
  pose proof (reachable_inv strftime int st us user) as Hinv.
  fold b in Hinv. rewrite Hconv in Hinv. destruct Hinv as [[dtext Ht] [dprio Hp]].
  exists dtext, dprio.
  destruct (step_reminder strftime int b user txt n1 n2 dtext dprio Hconv Ht Hp)
    as (Htm & Hud & Hc & Hrep).
  fold r rem in Htm, Hud, Hc, Hrep.
  rewrite Htm, Hrep.
  split; [done|]. split; [done|].
  split; [by rewrite add_task_tasks, tasks_of_insert_eq, add_task_new|].
  split; [apply add_task_saves|].
  split; [done|]. split; [done|].
  split; [by rewrite add_task_new|].
  subst rem; unfold reminder_time.
  repeat (split; [by intros ->|]).
  intros Hno. by rewrite (proj2 (proj2 (proj2 (proj2 reminder_offset_labels)))).
Qed.

Lemma reminder_step_always_creates_witness :
  let b := run_updates show_seconds int_ascii (boot ∅)
             [mkUpdate 7 (Command "add") 10 10;
              mkUpdate 7 (Text "Buy milk") 20 20;
              mkUpdate 7 (Text MEDIUM) 30 30] in
  let r := process_update show_seconds int_ascii b
             (mkUpdate 7 (Text "Через 1 час") 1000 1001) in
  conversations b !! 7 = Some SET_REMINDER
  ∧ tasks_of (tasks (task_manager (fst r))) 7
    = [mkTask 1 "Buy milk" (Some MEDIUM) "1001" false (Some "4600")]
  ∧ conversations (fst r) !! 7 = None
  ∧ user_data_of (fst r) 7 = cleared.
Proof.
  intros b r.
  assert (conversations b !! 7 = Some SET_REMINDER) as Hc
    by (vm_compute; reflexivity).
  split; [exact Hc|].
  destruct (reminder_step_always_creates show_seconds int_ascii ∅
              [mkUpdate 7 (Command "add") 10 10;
               mkUpdate 7 (Text "Buy milk") 20 20;
               mkUpdate 7 (Text MEDIUM) 30 30]
              7 "Через 1 час" 1000 1001 Hc)
    as (dtext & dprio & Ht & Hp & Hl & _ & Hud & Hcv & _).
  split; [vm_compute; reflexivity|].
  split; [exact Hcv | exact Hud].
Defined.

(** C8, as the code has it.  [add_task_start] does not touch the session
    data.  In every state the bot can reach, [/add] is accepted only when no
    dialogue is open for the user, and the draft is then already empty; while
    a dialogue is open [/add] is not accepted by any handler and the bot stays
    as it is, so the open dialogue goes on with its draft and no second one
    starts.  Whatever the session data held before, the task a dialogue
    produces has the text and the priority entered in that dialogue. *)
Theorem start_creation_scoping :
  ∀ (strftime : Z → string) (int : string → option Z),
    (∀ tm ud,
       Handlers.add_task_start tm ud = mkOut tm ud (Some (Next ADD_TASK)) [RAskText])
    ∧ (∀ st us user n1 n2,
         let b := run_updates strftime int (boot st) us in
         let r := process_update strftime int b
                    (mkUpdate user (Command "add") n1 n2) in
         (conversations b !! user = None →
            task_text (user_data_of b user) = None
            ∧ task_priority (user_data_of b user) = None
            ∧ conversations (fst r) !! user = Some ADD_TASK
            ∧ user_data_of (fst r) user = user_data_of b user
            ∧ task_manager (fst r) = task_manager b)
         ∧ (is_Some (conversations b !! user) → r = (b, [])))
    ∧ (∀ b user txt prio label a1 a2 b1 b2 c1 c2 d1 d2,
         conversations b !! user = None →
         prio ∈ PRIORITIES →
         let b' := run_updates strftime int b
                     [mkUpdate user (Command "add") a1 a2;
                      mkUpdate user (Text txt) b1 b2;
                      mkUpdate user (Text prio) c1 c2;
                      mkUpdate user (Text label) d1 d2] in
         let old := tasks_of (tasks (task_manager b)) user in
         tasks_of (tasks (task_manager b')) user
         = old ++ [mkTask (Z.of_nat (length old) + 1) txt (Some prio)
                          (strftime d2) false (reminder_time strftime label d1)]
         ∧ conversations b' !! user = None
         ∧ user_data_of b' user = cleared).
Proof.
  intros strftime int. split; [done|]. split.
  - intros st us user n1 n2 b r. split.
    + intros Hconv.
      pose proof (reachable_inv strftime int st us user) as Hinv.
      fold b in Hinv. rewrite Hconv in Hinv. destruct Hinv as [Ht Hp].
      destruct (step_add strftime int b user n1 n2 Hconv) as (Htm & Hud & Hc).
      done.
    + intros [s Hs]. subst r. unfold process_update.
      cbn [effective_user message]. by rewrite Hs, select_add.
  - intros b user txt prio label a1 a2 b1 b2 c1 c2 d1 d2 Hconv Hprio b' old.
    subst b'. unfold run_updates. cbn [fold_left].
    destruct (step_add strftime int b user a1 a2 Hconv) as (T1 & U1 & C1).
    revert T1 U1 C1.
    generalize (fst (process_update strftime int b
                       (mkUpdate user (Command "add") a1 a2))).
    intros s1 T1 U1 C1.
    destruct (step_text strftime int s1 user txt b1 b2 C1) as (T2 & U2 & C2).
    revert T2 U2 C2.
    generalize (fst (process_update strftime int s1
                       (mkUpdate user (Text txt) b1 b2))).
    intros s2 T2 U2 C2.
    destruct (step_priority strftime int s2 user prio c1 c2 C2 Hprio)
      as (T3 & U3 & C3).
    revert T3 U3 C3.
    generalize (fst (process_update strftime int s2
                       (mkUpdate user (Text prio) c1 c2))).
    intros s3 T3 U3 C3.
    destruct (step_reminder strftime int s3 user label d1 d2 txt prio C3)
      as (T4 & U4 & C4 & _).
    { by rewrite U3, U2. }
    { by rewrite U3. }
    rewrite T4, add_task_tasks, tasks_of_insert_eq, add_task_new.
    subst old. by rewrite T3, T2, T1.
Qed.

Lemma start_creation_scoping_witness :
  let b' := run_updates show_seconds int_ascii (boot ∅)
              [mkUpdate 7 (Command "add") 10 11;
               mkUpdate 7 (Text "Buy milk") 20 21;
               mkUpdate 7 (Text MEDIUM) 30 31;
               mkUpdate 7 (Text "Без напоминания") 40 41] in
  let old := tasks_of (tasks (task_manager (boot ∅))) 7 in
  tasks_of (tasks (task_manager b')) 7
  = old ++ [mkTask (Z.of_nat (length old) + 1) "Buy milk" (Some MEDIUM)
                   (show_seconds 41) false
                   (reminder_time show_seconds "Без напоминания" 40)]
  ∧ conversations b' !! 7 = None
  ∧ user_data_of b' 7 = cleared.
Proof.
  apply (proj2 (proj2 (start_creation_scoping show_seconds int_ascii))
           (boot ∅) 7 "Buy milk" MEDIUM "Без напоминания" 10 11 20 21 30 31 40 41).
  - reflexivity.
  - unfold PRIORITIES. in_list.
Defined.

(** C8, the sentence of the specification refuted.  A user opens the
    dialogue, gives the text A and sends [/add] again: the bot is exactly as
    before, the draft still holds A and the dialogue still waits for the
    priority; the two messages that follow create a task with the text A. *)
Lemma start_creation_keeps_draft_counterexample :
  let go := run_updates show_seconds int_ascii in
  let b2 := go (boot ∅) [mkUpdate 7 (Command "add") 10 10;
                         mkUpdate 7 (Text "A") 20 20] in
  let b3 := go b2 [mkUpdate 7 (Command "add") 30 30] in
  let b5 := go b3 [mkUpdate 7 (Text HIGH) 40 40;
                   mkUpdate 7 (Text "Завтра") 50 50] in
  b3 = b2
  ∧ task_text (user_data_of b3 7) = Some "A"
  ∧ conversations b3 !! 7 = Some SET_PRIORITY
  ∧ map (λ t, (text t, priority t)) (tasks_of (tasks (task_manager b5)) 7)
    = [("A", Some HIGH)]
  ∧ out_ud (Handlers.add_task_start (mkTM ∅ [])
              (mkUD (Some "old") (Some LOW) false false))
    = mkUD (Some "old") (Some LOW) false false.
Proof. repeat split; vm_compute; reflexivity. Qed.

(** * Further properties *)

(** ** The store: ids *)

Lemma complete_first_fixed l i l' :
  complete_first l i = Some l' → fixed_fields <$> l' = fixed_fields <$> l.
Proof.
  revert l'. induction l as [|t r IH]; intros l'; simpl; [done|].
  case_bool_decide.
  - by intros [= <-].
  - destruct (complete_first r i) as [r'|]; simpl; [|done].
    intros [= <-]. rewrite fmap_cons. by rewrite (IH r').
Qed.

Lemma complete_first_idem l i l' :
  complete_first l i = Some l' → complete_first l' i = Some l'.
Proof.
  revert l'. induction l as [|t r IH]; intros l'; simpl; [done|].
  case_bool_decide as E.
  - intros [= <-]. simpl. by rewrite bool_decide_eq_true_2.
  - destruct (complete_first r i) as [r'|]; simpl; [|done].
    intros [= <-]. simpl. rewrite bool_decide_eq_false_2 by done.
    by rewrite (IH r').
Qed.

Lemma complete_task_tasks_of tm u i :
  tasks_of (tasks (fst (complete_task tm u i))) u
  = default (tasks_of (tasks tm) u) (complete_first (tasks_of (tasks tm) u) i).
Proof.
  rewrite complete_task_unfold.
  destruct (complete_first _ _); simpl; by rewrite tasks_of_insert_eq.
Qed.

Lemma complete_task_fixed tm u i :
  fixed_fields <$> tasks_of (tasks (fst (complete_task tm u i))) u
  = fixed_fields <$> tasks_of (tasks tm) u.
Proof.
  rewrite complete_task_tasks_of.
  destruct (complete_first _ _) as [l'|] eqn:E; simpl; [|done].
  by apply complete_first_fixed in E.
Qed.

Lemma fixed_fields_ids (l1 l2 : list Task) :
  fixed_fields <$> l1 = fixed_fields <$> l2 → id <$> l1 = id <$> l2.
Proof.
  intros H. apply (f_equal (fmap (λ x, x.1.1.1.1))) in H.
  by rewrite <- !list_fmap_compose in H.
Qed.

(** X1.  As long as nothing is deleted the ids of a user are 1, 2, ..., n in
    the order of the list: [add_task] and [complete_task] keep that shape,
    and a list of that shape has no id twice. *)
Theorem ids_stay_in_sequence_without_delete :
  ∀ (strftime : Z → string) tm u,
    ids_in_sequence (tasks_of (tasks tm) u) →
    (∀ txt prio rem now,
       ids_in_sequence
         (tasks_of (tasks (fst (add_task strftime tm u txt prio rem now))) u))
    ∧ (∀ i, ids_in_sequence (tasks_of (tasks (fst (complete_task tm u i))) u))
    ∧ NoDup (id <$> tasks_of (tasks tm) u).
Proof.
  intros strftime tm u Hseq. unfold ids_in_sequence in *. split; [|split].
  - intros txt prio rem now.
    rewrite add_task_tasks, tasks_of_insert_eq, add_task_new.
    rewrite fmap_app, Hseq, length_app. simpl.
    rewrite Nat.add_1_r, seq_S, fmap_app. simpl.
    do 3 f_equal. lia.
  - intros i.
    pose proof (complete_task_fixed tm u i) as Hf.
    rewrite (fixed_fields_ids _ _ Hf), Hseq.
    apply (f_equal length) in Hf. rewrite !length_fmap in Hf.
    by rewrite Hf.
  - rewrite Hseq. apply NoDup_fmap_2; [|apply NoDup_seq].
    intros x y. lia.
Qed.

Lemma ids_stay_in_sequence_without_delete_witness :
  let tm := mkTM {[7 := [mkTask 1 "A" (Some HIGH) "t0" false None;
                         mkTask 2 "B" (Some LOW) "t0" true None]]} [] in
  (∀ txt prio rem now,
     ids_in_sequence
       (tasks_of (tasks (fst (add_task show_seconds tm 7 txt prio rem now))) 7))
  ∧ (∀ i, ids_in_sequence (tasks_of (tasks (fst (complete_task tm 7 i))) 7))
  ∧ NoDup (id <$> tasks_of (tasks tm) 7).
Proof.
  intros tm.
  apply (ids_stay_in_sequence_without_delete show_seconds tm 7).
  reflexivity.
Defined.

Lemma without_id_cover i l n :
  (∀ k t, l !! k = Some t → (Z.of_nat (n + k) + 1 ≤ id t)%Z) →
  ∀ k t, without_id i l !! k = Some t → (Z.of_nat (n + k) + 1 ≤ id t)%Z.
Proof.
  unfold without_id. revert n. induction l as [|a r IH]; intros n H k t; simpl;
    [done|].
  assert (∀ k t, r !! k = Some t → (Z.of_nat (n + k) + 1 ≤ id t)%Z) as Hr.
  { intros k' t' Hk'. specialize (H (S k') t' Hk'). lia. }
  destruct (negb _).
  - destruct k as [|k]; simpl.
    + intros [= <-]. by apply (H 0%nat).
    + intros Hk. replace (n + S k)%nat with (S n + k)%nat by lia.
      apply (IH (S n)); [|done].
      intros k' t' Hk'. specialize (H (S k') t' Hk').
      replace (S n + k')%nat with (n + S k')%nat by lia. done.
  - by apply IH.
Qed.

(** X2.  "The id of a task is at least its position in the list" is kept by
    all three mutating methods: a new task sits exactly at the position of
    its id, a deletion only moves tasks forward, a completion moves
    nothing.  In particular ids are positive. *)
Theorem ids_cover_position_kept :
  ∀ (strftime : Z → string) tm u,
    ids_cover_position (tasks_of (tasks tm) u) →
    (∀ txt prio rem now,
       ids_cover_position
         (tasks_of (tasks (fst (add_task strftime tm u txt prio rem now))) u))
    ∧ (∀ i, ids_cover_position (tasks_of (tasks (fst (complete_task tm u i))) u))
    ∧ (∀ i, ids_cover_position (tasks_of (tasks (fst (delete_task tm u i))) u))
    ∧ (∀ t, t ∈ tasks_of (tasks tm) u → (1 ≤ id t)%Z).
Proof.
  intros strftime tm u Hcov. unfold ids_cover_position in *.
  split; [|split; [|split]].
  - intros txt prio rem now k t.
    rewrite add_task_tasks, tasks_of_insert_eq, add_task_new.
    intros Hk. apply lookup_snoc_Some in Hk as [[_ Hk]|[-> <-]].
    + by apply Hcov.
    + simpl. lia.
  - intros i k t Hk.
    pose proof (complete_task_fixed tm u i) as Hf.
    apply fixed_fields_ids in Hf.
    apply (f_equal (λ l, l !! k)) in Hf.
    rewrite !list_lookup_fmap, Hk in Hf. simpl in Hf.
    destruct (tasks_of (tasks tm) u !! k) as [t0|] eqn:E; [|done].
    injection Hf as Hf. rewrite Hf. by apply Hcov.
  - intros i k t. rewrite delete_task_tasks, tasks_of_insert_eq.
    intros Hk. by apply (without_id_cover i _ 0%nat) in Hk.
  - intros t Ht. apply list_elem_of_lookup in Ht as [k Hk].
    specialize (Hcov k t Hk). lia.
Qed.

Lemma ids_cover_position_kept_witness :
  let t1 := mkTask 3 "C" (Some HIGH) "t0" false None in
  let t2 := mkTask 2 "D" (Some LOW) "t0" false None in
  let tm := mkTM {[7 := [t1; t2]]} [] in
  ids_cover_position (tasks_of (tasks tm) 7)
  ∧ ids_cover_position (tasks_of (tasks (fst (delete_task tm 7 3))) 7)
  ∧ (1 ≤ id t2)%Z.
Proof.
  intros t1 t2 tm.
  assert (ids_cover_position (tasks_of (tasks tm) 7)) as H.
  { intros [|[|k]] t Hk; vm_compute in Hk; try done;
      injection Hk as <-; vm_compute; discriminate. }
  split; [exact H|].
  destruct (ids_cover_position_kept show_seconds tm 7 H) as (_ & _ & Hd & Hp).
  split; [apply Hd|]. apply Hp. vm_compute. in_list.
Defined.

(** ** The store: completion and deletion *)

Lemma complete_task_other tm u i v :
  v ≠ u → tasks (fst (complete_task tm u i)) !! v = tasks tm !! v.
Proof.
  intros Hv. rewrite complete_task_unfold.
  destruct (complete_first _ _); simpl; by rewrite lookup_insert_ne.
Qed.

(** X3.  [complete_task] writes the [completed] field and nothing else: ids,
    texts, priorities, creation times and reminders of the user's tasks, and
    their number, are as before, and no other user's entry changes.  Run
    again with the same id it answers the same and leaves the mapping as the
    first run left it, although a successful run saves each time. *)
Theorem complete_task_writes_completed_only :
  ∀ tm u i,
    let r := complete_task tm u i in
    let r2 := complete_task (fst r) u i in
    fixed_fields <$> tasks_of (tasks (fst r)) u
    = fixed_fields <$> tasks_of (tasks tm) u
    ∧ length (tasks_of (tasks (fst r)) u) = length (tasks_of (tasks tm) u)
    ∧ (∀ v, v ≠ u → tasks (fst r) !! v = tasks tm !! v)
    ∧ snd r2 = snd r
    ∧ tasks (fst r2) = tasks (fst r)
    ∧ saves (fst r2)
      = (if snd r then saves (fst r) ++ [tasks (fst r)] else saves (fst r)).
Proof.
  intros tm u i r r2.
  pose proof (complete_task_fixed tm u i) as Hf. fold r in Hf.
  split; [done|]. split.
  { apply (f_equal length) in Hf. by rewrite !length_fmap in Hf. }
  split; [intros v Hv; by apply complete_task_other|].
  subst r2. rewrite (complete_task_unfold (fst r)).
  subst r. rewrite complete_task_tasks_of.
  rewrite complete_task_unfold.
  destruct (complete_first (tasks_of (tasks tm) u) i) as [l'|] eqn:E; simpl.
  - rewrite (complete_first_idem _ _ _ E). simpl.
    by rewrite insert_insert_eq.
  - rewrite E. simpl. by rewrite insert_insert_eq.
Qed.

Lemma without_id_idem i l : without_id i (without_id i l) = without_id i l.
Proof.
  apply without_id_no_match. intros t Ht.
  rewrite without_id_filter in Ht. by apply list_elem_of_filter in Ht as [? _].
Qed.

Lemma without_id_comm i j l :
  without_id i (without_id j l) = without_id j (without_id i l).
Proof.
  unfold without_id. induction l as [|t r IH]; simpl; [done|].
  repeat (case_bool_decide; simpl); by rewrite ?IH.
Qed.

(** X4.  After [delete_task] no task of the user has the id, so deleting the
    same id again is a not-found that changes and saves nothing, and
    completing it is a not-found too; two deletions leave the same mapping
    in either order. *)
Theorem delete_task_is_final :
  ∀ tm u i,
    let r := delete_task tm u i in
    (∀ t, t ∈ tasks_of (tasks (fst r)) u → id t ≠ i)
    ∧ delete_task (fst r) u i = (fst r, false)
    ∧ snd (complete_task (fst r) u i) = false
    ∧ (∀ j, tasks (fst (delete_task (fst r) u j))
            = tasks (fst (delete_task (fst (delete_task tm u j)) u i))).
Proof.
  intros tm u i r.
  assert (∀ t, t ∈ tasks_of (tasks (fst r)) u → id t ≠ i) as Hgone.
  { intros t. subst r. rewrite delete_task_tasks, tasks_of_insert_eq.
    rewrite without_id_filter. by intros [? _]%list_elem_of_filter. }
  split; [done|]. split; [|split].
  - pose proof (delete_task_snd (fst r) u i) as Hb.
    pose proof (delete_task_saves (fst r) u i) as Hs.
    pose proof (delete_task_tasks (fst r) u i) as Ht.
    rewrite without_id_no_match in Hb, Ht by done.
    rewrite Nat.ltb_irrefl in Hb. rewrite Hb in Hs.
    assert (tasks (fst r) !! u = Some (tasks_of (tasks (fst r)) u)) as Hu.
    { subst r. rewrite delete_task_tasks, tasks_of_insert_eq.
      by rewrite lookup_insert_eq. }
    rewrite insert_id in Ht by done.
    destruct (delete_task (fst r) u i) as [[st sv] ok]. simpl in *.
    subst. by destruct (fst r).
  - rewrite complete_task_unfold.
    by rewrite (proj2 (complete_first_None _ _) Hgone).
  - intros j. subst r.
    rewrite !delete_task_tasks, !tasks_of_insert_eq, !insert_insert_eq.
    by rewrite without_id_comm.
Qed.

(** ** The store: buckets *)

Lemma bucket_total_filters tm u :
  bucket_total (snd (get_tasks_by_priority tm u))
  = (length (List.filter (in_bucket HIGH) (tasks_of (tasks tm) u))
     + (length (List.filter (in_bucket MEDIUM) (tasks_of (tasks tm) u))
        + (length (List.filter (in_bucket LOW) (tasks_of (tasks tm) u)) + 0)))%nat.
Proof.
  unfold bucket_total, PRIORITIES. simpl.
  rewrite !buckets_lookup.
  by rewrite !bool_decide_eq_true_2 by (unfold PRIORITIES; in_list).
Qed.

Lemma in_bucket_cases t :
  (in_bucket HIGH t = false ∧ in_bucket MEDIUM t = false
   ∧ in_bucket LOW t = false
   ∧ (completed t = true ∨ default MEDIUM (priority t) ∉ PRIORITIES))
  ∨ (completed t = false
     ∧ ((in_bucket HIGH t = true ∧ in_bucket MEDIUM t = false
         ∧ in_bucket LOW t = false)
        ∨ (in_bucket HIGH t = false ∧ in_bucket MEDIUM t = true
           ∧ in_bucket LOW t = false)
        ∨ (in_bucket HIGH t = false ∧ in_bucket MEDIUM t = false
           ∧ in_bucket LOW t = true))).
Proof.
  unfold in_bucket, PRIORITIES. destruct (completed t); simpl.
  { left. repeat split. by left. }
  destruct (decide (default MEDIUM (priority t) = HIGH)) as [->|H1].
  { right. split; [done|]. left. done. }
  destruct (decide (default MEDIUM (priority t) = MEDIUM)) as [->|H2].
  { right. split; [done|]. right; left. done. }
  destruct (decide (default MEDIUM (priority t) = LOW)) as [->|H3].
  { right. split; [done|]. right; right. done. }
  left. rewrite !bool_decide_eq_false_2 by done. repeat split. right.
  intros H. repeat (apply elem_of_cons in H as [H|H]); [..|inversion H]; done.
Qed.

Lemma bucket_filters_count (l : list Task) :
  (length (List.filter (in_bucket HIGH) l)
   + (length (List.filter (in_bucket MEDIUM) l)
      + (length (List.filter (in_bucket LOW) l) + 0))
   ≤ length (List.filter (λ t, negb (completed t)) l))%nat
  ∧ ((∀ t, t ∈ l → default MEDIUM (priority t) ∈ PRIORITIES) →
     (length (List.filter (in_bucket HIGH) l)
      + (length (List.filter (in_bucket MEDIUM) l)
         + (length (List.filter (in_bucket LOW) l) + 0))
      = length (List.filter (λ t, negb (completed t)) l))%nat).
Proof.
  induction l as [|t r [IHle IHeq]]; [by simpl|].
  split.
  - simpl.
    destruct (in_bucket_cases t)
      as [(-> & -> & -> & _) | (-> & [(-> & -> & ->)|[(-> & -> & ->)|(-> & -> & ->)]])];
      simpl; try lia.
    destruct (negb (completed t)); simpl; lia.
  - intros Hall.
    assert (∀ t, t ∈ r → default MEDIUM (priority t) ∈ PRIORITIES) as Hr
      by (intros t' Ht'; apply Hall; by right).
    specialize (IHeq Hr).
    assert (default MEDIUM (priority t) ∈ PRIORITIES) as Ht
      by (apply Hall; left).
    simpl.
    destruct (in_bucket_cases t)
      as [(-> & -> & -> & [-> | Hno]) | (-> & [(-> & -> & ->)|[(-> & -> & ->)|(-> & -> & ->)]])];
      simpl; try lia.
    done.
Qed.

(** X5.  The three buckets never hold more tasks than the user has
    incomplete ones, and hold exactly as many when every task's priority is
    one of the three labels or missing: then each incomplete task is in one
    bucket and one only.  Grouping saves nothing. *)
Theorem buckets_partition_incomplete :
  ∀ tm u,
    let r := get_tasks_by_priority tm u in
    let l := tasks_of (tasks tm) u in
    (bucket_total (snd r) ≤ length (List.filter (λ t, negb (completed t)) l))%nat
    ∧ ((∀ t, t ∈ l → default MEDIUM (priority t) ∈ PRIORITIES) →
       bucket_total (snd r) = length (List.filter (λ t, negb (completed t)) l))
    ∧ saves (fst r) = saves tm
    ∧ (∀ v, tasks_of (tasks (fst r)) v = tasks_of (tasks tm) v).
Proof.
  intros tm u r l. subst r l. rewrite bucket_total_filters.
  destruct (bucket_filters_count (tasks_of (tasks tm) u)) as [Hle Heq].
  split; [done|]. split; [done|].
  unfold get_tasks_by_priority. rewrite get_user_tasks_eq. simpl.
  split; [done|]. intros v. apply tasks_of_materialize.
Qed.

Lemma buckets_partition_incomplete_witness :
  let t1 := mkTask 1 "A" None "t0" false None in
  let t2 := mkTask 2 "B" (Some HIGH) "t0" true None in
  let t3 := mkTask 3 "C" (Some LOW) "t0" false None in
  let tm := mkTM {[7 := [t1; t2; t3]]} [] in
  bucket_total (snd (get_tasks_by_priority tm 7))
  = length (List.filter (λ t, negb (completed t)) (tasks_of (tasks tm) 7)).
Proof.
  intros t1 t2 t3 tm.
  apply (proj1 (proj2 (buckets_partition_incomplete tm 7))).
  intros t Ht. vm_compute in Ht.
  repeat (apply elem_of_cons in Ht as [->|Ht]); [..|inversion Ht];
    unfold PRIORITIES; simpl; in_list.
Defined.

(** X6.  A task that [add_task] has just created with one of the three
    priorities is the last task of that priority's bucket, behind the tasks
    the bucket held before, and [complete_task] with the returned id
    succeeds. *)
Theorem added_task_is_listed :
  ∀ (strftime : Z → string) tm u txt prio rem now,
    prio ∈ PRIORITIES →
    let a := add_task strftime tm u txt prio rem now in
    snd (get_tasks_by_priority (fst a) u) !! prio
    = Some (default [] (snd (get_tasks_by_priority tm u) !! prio) ++ [snd a])
    ∧ snd (complete_task (fst a) u (id (snd a))) = true.
Proof.
  intros strftime tm u txt prio rem now Hprio a. split.
  - subst a. rewrite !buckets_lookup, !bool_decide_eq_true_2 by done.
    rewrite add_task_tasks, tasks_of_insert_eq, List.filter_app.
    f_equal. f_equal. rewrite add_task_new. simpl.
    unfold in_bucket. simpl. by rewrite bool_decide_eq_true_2.
  - rewrite complete_task_unfold.
    destruct (complete_first _ _) as [l'|] eqn:E; [done|].
    exfalso. apply (proj1 (complete_first_None _ _) E (snd a)); [|done].
    subst a. rewrite add_task_tasks, tasks_of_insert_eq.
    apply elem_of_app. right. in_list.
Qed.

Lemma added_task_is_listed_witness :
  let tm := mkTM {[7 := [mkTask 1 "A" (Some LOW) "t0" false None]]} [] in
  let a := add_task show_seconds tm 7 "B" LOW None 5 in
  snd (get_tasks_by_priority (fst a) 7) !! LOW
  = Some (default [] (snd (get_tasks_by_priority tm 7) !! LOW) ++ [snd a])
  ∧ snd (complete_task (fst a) 7 (id (snd a))) = true.
Proof.
  intros tm.
  apply (added_task_is_listed show_seconds tm 7 "B" LOW None 5).
  unfold PRIORITIES. in_list.
Defined.

(** ** Callbacks and the task manager *)

Lemma get_user_tasks_twice tm u :
  get_user_tasks (fst (get_user_tasks tm u)) u
  = (fst (get_user_tasks tm u), tasks_of (tasks tm) u).
Proof.
  rewrite !get_user_tasks_eq. simpl.
  rewrite tasks_of_insert_eq. unfold with_tasks. simpl.
  by rewrite insert_insert_eq.
Qed.

Lemma get_tasks_by_priority_fst tm u :
  fst (get_tasks_by_priority tm u) = fst (get_user_tasks tm u).
Proof.
  unfold get_tasks_by_priority. by destruct (get_user_tasks tm u).
Qed.

Section Callbacks.

Variable strftime : Z → string.
Variable int : string → option Z.

(** The task manager a callback leaves is the one it got, or the result of
    one method call on it for the user of the update. *)
Lemma run_task_manager cb tm ud u o :
  run strftime int cb tm ud u = Some o →
  out_tm o = tm
  ∨ out_tm o = fst (get_user_tasks tm (effective_user u))
  ∨ (∃ txt prio rem now,
       out_tm o = fst (add_task strftime tm (effective_user u) txt prio rem now))
  ∨ (∃ i, out_tm o = fst (complete_task tm (effective_user u) i))
  ∨ (∃ i, out_tm o = fst (delete_task tm (effective_user u) i)).
Proof.
  destruct cb; simpl; try (intros [= <-]; by left).
  - unfold Handlers.set_priority. intros [= <-]. left. by case_bool_decide.
  - unfold Handlers.set_reminder.
    destruct (task_text ud) as [txt|]; [|done].
    destruct (task_priority ud) as [prio|]; [|done].
    intros [= <-]. right; right; left. by eexists _, _, _, _.
  - intros [= <-]. right; left. unfold Handlers.list_tasks.
    pose proof (get_tasks_by_priority_fst tm (effective_user u)) as Hf.
    destruct (get_tasks_by_priority tm (effective_user u)) as [tm1 d].
    simpl in Hf. subst tm1. case_match; [done|].
    by rewrite get_user_tasks_twice.
  - intros [= <-]. right; left. unfold Handlers.complete_task.
    destruct (get_user_tasks tm (effective_user u)) as [tm1 l]. by case_match.
  - intros [= <-]. right; left. unfold Handlers.delete_task.
    destruct (get_user_tasks tm (effective_user u)) as [tm1 l]. by case_match.
  - intros [= <-]. unfold Handlers.handle_task_action.
    destruct (int _) as [i|]; [|by left].
    destruct (awaiting_complete ud).
    { right; right; right; left. exists i.
      by destruct (complete_task tm (effective_user u) i). }
    destruct (awaiting_delete ud); [|by left].
    right; right; right; right. exists i.
    by destruct (delete_task tm (effective_user u) i).
Qed.

Lemma run_other_users cb tm ud u o v :
  run strftime int cb tm ud u = Some o →
  v ≠ effective_user u →
  tasks (out_tm o) !! v = tasks tm !! v.
Proof.
  intros Hrun Hv.
  destruct (run_task_manager _ _ _ _ _ Hrun)
    as [->|[->|[(txt & prio & rem & now & ->)|[(i & ->)|(i & ->)]]]].
  - done.
  - rewrite get_user_tasks_fst. simpl. by rewrite lookup_insert_ne.
  - rewrite add_task_tasks. by rewrite lookup_insert_ne.
  - by apply complete_task_other.
  - rewrite delete_task_tasks. by rewrite lookup_insert_ne.
Qed.

Lemma in_sync_saved loaded tm :
  saves tm ≠ [] → last (saves tm) = Some (tasks tm) → in_sync loaded tm.
Proof. intros _ H v. unfold persisted. by rewrite H. Qed.

Lemma in_sync_quiet loaded tm tm' :
  saves tm' = saves tm →
  (∀ v, tasks_of (tasks tm') v = tasks_of (tasks tm) v) →
  in_sync loaded tm → in_sync loaded tm'.
Proof.
  intros Hs Ht H v. unfold persisted. rewrite Hs, Ht. apply H.
Qed.

Lemma run_in_sync loaded cb tm ud u o :
  run strftime int cb tm ud u = Some o →
  in_sync loaded tm → in_sync loaded (out_tm o).
Proof.
  intros Hrun Hsync.
  destruct (run_task_manager _ _ _ _ _ Hrun)
    as [->|[->|[(txt & prio & rem & now & ->)|[(i & ->)|(i & ->)]]]].
  - done.
  - rewrite get_user_tasks_fst.
    apply (in_sync_quiet loaded tm); [done| |done].
    intros v. apply tasks_of_materialize.
  - apply in_sync_saved; rewrite add_task_saves.
    + by destruct (saves tm).
    + apply last_snoc.
  - rewrite complete_task_unfold.
    destruct (complete_first _ _) as [l'|]; simpl.
    + apply in_sync_saved; simpl; [by destruct (saves tm) | apply last_snoc].
    + apply (in_sync_quiet loaded tm); [done| |done].
      intros v. apply tasks_of_materialize.
  - pose proof (delete_task_saves tm (effective_user u) i) as Hs.
    destruct (snd (delete_task tm (effective_user u) i)) eqn:Hb.
    + apply in_sync_saved; rewrite Hs;
        [by destruct (saves tm) | apply last_snoc].
    + apply (in_sync_quiet loaded tm); [done| |done].
      intros v. rewrite delete_task_tasks.
      rewrite without_id_no_match; [apply tasks_of_materialize|].
      intros t Ht Hid.
      assert (snd (delete_task tm (effective_user u) i) = true); [|congruence].
      rewrite delete_task_snd. apply without_id_length_lt. eauto.
Qed.



Lemma process_update_task_manager b u :
  task_manager (fst (process_update strftime int b u)) = task_manager b
  ∨ ∃ cb o, run strftime int cb (task_manager b)
              (user_data_of b (effective_user u)) u = Some o
            ∧ task_manager (fst (process_update strftime int b u)) = out_tm o.
Proof.
  unfold process_update.
  destruct (select _ _) as [[cb inconv]|]; [|by left].
  destruct (run _ _ _ _ _ _) as [o|] eqn:Hrun; [|by left].
  right. by exists cb, o.
Qed.

End Callbacks.

(** X7.  An update of one user changes nothing that belongs to another: the
    other user's entry in the store, session data and dialogue state are as
    before. *)
Theorem users_are_isolated :
  ∀ (strftime : Z → string) (int : string → option Z) b u v,
    v ≠ effective_user u →
    let b' := fst (process_update strftime int b u) in
    tasks (task_manager b') !! v = tasks (task_manager b) !! v
    ∧ user_data_of b' v = user_data_of b v
    ∧ conversations b' !! v = conversations b !! v.
Proof.
  intros strftime int b u v Hv b'.
  destruct (process_update_other strftime int b u v Hv) as [Hc Hud].
  split; [|done].
  destruct (process_update_task_manager strftime int b u)
    as [Htm | (cb & o & Hrun & Htm)]; subst b'; rewrite Htm; [done|].
  by eapply run_other_users.
Qed.

Lemma users_are_isolated_witness :
  let b := mkBot (mkTM {[7 := [mkTask 1 "A" (Some HIGH) "t0" false None];
                         8 := [mkTask 1 "B" (Some LOW) "t0" false None]]} [])
                 {[7 := mkUD None None false true]} ∅ in
  let b' := fst (process_update show_seconds int_ascii b
                   (mkUpdate 7 (Text "1") 0 0)) in
  tasks (task_manager b') !! 8 = tasks (task_manager b) !! 8
  ∧ user_data_of b' 8 = user_data_of b 8
  ∧ conversations b' !! 8 = conversations b !! 8.
Proof.
  intros b.
  apply (users_are_isolated show_seconds int_ascii b (mkUpdate 7 (Text "1") 0 0) 8).
  discriminate.
Defined.


(** X9.  After any sequence of updates the mapping of the last
    [_save_tasks] (the loaded mapping if nothing was saved) and the mapping
    in memory give every user the same list: every mutation of a list is
    followed by a save, and what is not saved is only an empty entry. *)
Theorem data_file_agrees_with_memory :
  ∀ (strftime : Z → string) (int : string → option Z) st us,
    in_sync st (task_manager (run_updates strftime int (boot st) us)).
Proof.
  intros strftime int st us.
  assert (∀ b, in_sync st (task_manager b) →
               in_sync st (task_manager (run_updates strftime int b us))) as H.
  { induction us as [|u us IH]; intros b Hb; [done|].
    simpl. apply IH.
    destruct (process_update_task_manager strftime int b u)
      as [-> | (cb & o & Hrun & ->)]; [done|].
    by eapply run_in_sync. }
  apply H. intros v. done.
Qed.


(** ** The command callbacks *)

Lemma bool_filter_sublist {A} (f : A → bool) (l : list A) :
  List.filter f l `sublist_of` l.
Proof.
  induction l as [|a r IH]; simpl; [constructor|].
  destruct (f a); by constructor.
Qed.

Lemma last5_bounds l :
  (length (Handlers.last5 l) = Nat.min 5 (length l))%nat
  ∧ Handlers.last5 l `suffix_of` l.
Proof.
  unfold Handlers.last5. split; [rewrite length_drop; lia | apply suffix_drop].
Qed.

(** X10.  [list_tasks] reads only: it leaves the session data, the saves and
    every user's list as they are.  It answers "no active tasks" exactly when
    the three buckets are empty, also if the user has completed tasks;
    otherwise it shows the non-empty buckets in the order of [PRIORITIES] and
    the last five completed tasks at most, in list order. *)
Theorem list_tasks_reply :
  ∀ tm ud u,
    let o := Handlers.list_tasks tm ud u in
    let l := tasks_of (tasks tm) u in
    out_ud o = ud
    ∧ saves (out_tm o) = saves tm
    ∧ (∀ v, tasks_of (tasks (out_tm o)) v = tasks_of (tasks tm) v)
    ∧ (out_replies o = [RNoActiveTasks]
       ↔ bucket_total (snd (get_tasks_by_priority tm u)) = 0%nat)
    ∧ (∀ bs tail, out_replies o = [RTaskList bs tail] →
         bs `sublist_of` ((λ p, (p, List.filter (in_bucket p) l)) <$> PRIORITIES)
         ∧ (∀ p b, (p, b) ∈ bs → b ≠ [])
         ∧ tail `suffix_of` List.filter completed l
         ∧ length tail = Nat.min 5 (length (List.filter completed l))).
Proof.
  intros tm ud u o l.
  pose proof (buckets_lookup tm u) as Hd.
  pose proof (get_tasks_by_priority_fst tm u) as Hf.
  subst o. unfold Handlers.list_tasks, bucket_total.
  destruct (get_tasks_by_priority tm u) as [tm1 d]. simpl in Hd, Hf. subst tm1.
  unfold PRIORITIES. simpl.
  rewrite !Hd, !bool_decide_eq_true_2 by (unfold PRIORITIES; in_list). simpl.
  fold l. rewrite get_user_tasks_twice. fold l.
  destruct (_ =? 0)%nat eqn:E; simpl.
  - apply Nat.eqb_eq in E. rewrite get_user_tasks_fst. simpl.
    split; [done|]. split; [done|].
    split; [intros v; apply tasks_of_materialize|].
    split; [done|]. intros bs tail [=].
  - apply Nat.eqb_neq in E. rewrite get_user_tasks_fst. simpl.
    split; [done|]. split; [done|].
    split; [intros v; apply tasks_of_materialize|].
    split; [split; [intros [=] | done]|].
    intros bs tail [= <- <-].
    set (f := λ pb : string * list Task, negb (length pb.2 =? 0)%nat).
    set (bk := [(HIGH, List.filter (in_bucket HIGH) l);
                (MEDIUM, List.filter (in_bucket MEDIUM) l);
                (LOW, List.filter (in_bucket LOW) l)]).
    pose proof (bool_filter_sublist f bk) as Hsub.
    assert (∀ p b, (p, b) ∈ List.filter f bk → b ≠ []) as Hne.
    { intros p b Hin. apply list_elem_of_In, filter_In in Hin as [_ Hf].
      intros ->. done. }
    simpl in Hsub, Hne.
    split; [exact Hsub|]. split; [exact Hne|].
    destruct (last5_bounds (List.filter completed l)) as [Hlen Hsuf]. done.
Qed.

Lemma list_tasks_reply_witness :
  let t1 := mkTask 1 "A" (Some HIGH) "t0" true None in
  let t2 := mkTask 2 "B" (Some LOW) "t0" false None in
  let tm := mkTM {[7 := [t1; t2]]} [] in
  let o := Handlers.list_tasks tm cleared 7 in
  [(LOW, [t2])] `sublist_of`
     ((λ p, (p, List.filter (in_bucket p) (tasks_of (tasks tm) 7))) <$> PRIORITIES)
  ∧ (∀ p b, (p, b) ∈ [(LOW, [t2])] → b ≠ [])
  ∧ [t1] `suffix_of` List.filter completed (tasks_of (tasks tm) 7)
  ∧ length [t1]
    = Nat.min 5 (length (List.filter completed (tasks_of (tasks tm) 7))).
Proof.
  intros t1 t2 tm o.
  apply (proj2 (proj2 (proj2 (proj2 (list_tasks_reply tm cleared 7))))
           [(LOW, [t2])] [t1]).
  vm_compute. reflexivity.
Defined.


(** ** The resolver and the dialogue *)

Lemma complete_task_success tm u i :
  snd (complete_task tm u i) = true ↔ ∃ t, t ∈ tasks_of (tasks tm) u ∧ id t = i.
Proof.
  rewrite complete_task_unfold.
  destruct (complete_first _ _) as [l'|] eqn:E; simpl.
  - split; [intros _ | done].
    apply complete_first_Some in E as (k & t & Hk & Hid & _).
    exists t. split; [by eapply list_elem_of_lookup_2 | done].
  - split; [done | intros (t & Ht & Hid)].
    exfalso. by eapply complete_first_None.
Qed.

(** X12.  With both flags set a number is used for the completion alone and
    the deletion flag stays; the next number is then used for the deletion,
    and a third one finds no flag and is dropped without a reply.  Sent
    twice, the id of an existing task therefore completes and then deletes
    every task with that id. *)
Theorem both_flags_resolve_in_turn :
  ∀ (int : string → option Z) tm ud u txt i,
    int txt = Some i →
    awaiting_complete ud = true → awaiting_delete ud = true →
    let o1 := Handlers.handle_task_action int tm ud u txt in
    let o2 := Handlers.handle_task_action int (out_tm o1) (out_ud o1) u txt in
    let o3 := Handlers.handle_task_action int (out_tm o2) (out_ud o2) u txt in
    out_tm o1 = fst (complete_task tm u i)
    ∧ (awaiting_complete (out_ud o1), awaiting_delete (out_ud o1)) = (false, true)
    ∧ out_tm o2 = fst (delete_task (fst (complete_task tm u i)) u i)
    ∧ (awaiting_complete (out_ud o2), awaiting_delete (out_ud o2)) = (false, false)
    ∧ o3 = mkOut (out_tm o2) (out_ud o2) None []
    ∧ ((∃ t, t ∈ tasks_of (tasks tm) u ∧ id t = i) →
       out_replies o1 = [RCompleted i] ∧ out_replies o2 = [RDeleted i]
       ∧ ∀ t, t ∈ tasks_of (tasks (out_tm o2)) u → id t ≠ i).
Proof.
  intros int tm ud u txt i Hint Hc Hd o1 o2 o3.
  assert (o1 = mkOut (fst (complete_task tm u i))
                     (mkUD (task_text ud) (task_priority ud) false true) None
                     [if snd (complete_task tm u i)
                      then RCompleted i else RNotFound i]) as H1.
  { subst o1. unfold Handlers.handle_task_action. rewrite Hint, Hc.
    destruct (complete_task tm u i).
    unfold Handlers.pop_awaiting_complete. by rewrite Hd. }
  assert (o2 = mkOut (fst (delete_task (fst (complete_task tm u i)) u i))
                     (mkUD (task_text ud) (task_priority ud) false false) None
                     [if snd (delete_task (fst (complete_task tm u i)) u i)
                      then RDeleted i else RNotFound i]) as H2.
  { subst o2. rewrite H1. unfold Handlers.handle_task_action. simpl.
    rewrite Hint. by destruct (delete_task _ u i). }
  assert (o3 = mkOut (out_tm o2) (out_ud o2) None []) as H3.
  { subst o3. rewrite H2. unfold Handlers.handle_task_action. simpl.
    by rewrite Hint. }
  rewrite H3. rewrite H1, H2. simpl.
  repeat (split; [done|]).
  intros Hex.
  rewrite (proj2 (complete_task_success tm u i) Hex).
  assert (∃ t, t ∈ tasks_of (tasks (fst (complete_task tm u i))) u ∧ id t = i)
    as Hex'.
  { destruct Hex as (t & Ht & Hid).
    pose proof (fixed_fields_ids _ _ (complete_task_fixed tm u i)) as Hids.
    assert (i ∈ id <$> tasks_of (tasks (fst (complete_task tm u i))) u) as Hi.
    { rewrite Hids. apply list_elem_of_fmap. eauto. }
    apply list_elem_of_fmap in Hi as (t' & -> & Ht'). eauto. }
  rewrite delete_task_snd.
  rewrite (proj2 (without_id_length_lt _ _) Hex').
  split; [done|]. split; [done|].
  intros t. rewrite delete_task_tasks, tasks_of_insert_eq, without_id_filter.
  by intros [? _]%list_elem_of_filter.
Qed.

Lemma both_flags_resolve_in_turn_witness :
  let tm := mkTM {[7 := [mkTask 1 "A" (Some HIGH) "t0" false None]]} [] in
  let ud := mkUD None None true true in
  let o1 := Handlers.handle_task_action int_ascii tm ud 7 "1" in
  let o2 := Handlers.handle_task_action int_ascii (out_tm o1) (out_ud o1) 7 "1" in
  out_replies o1 = [RCompleted 1] ∧ out_replies o2 = [RDeleted 1]
  ∧ ∀ t, t ∈ tasks_of (tasks (out_tm o2)) 7 → id t ≠ 1.
Proof.
  intros tm ud.
  apply (both_flags_resolve_in_turn int_ascii tm ud 7 "1" 1);
    try reflexivity.
  eexists. split; [vm_compute; left | reflexivity].
Defined.

Section Dialogue.

Variable strftime : Z → string.
Variable int : string → option Z.

Lemma step_bad_priority b user txt n1 n2 :
  conversations b !! user = Some SET_PRIORITY →
  txt ∉ PRIORITIES →
  let r := process_update strftime int b (mkUpdate user (Text txt) n1 n2) in
  task_manager (fst r) = task_manager b
  ∧ user_data_of (fst r) user = user_data_of b user
  ∧ conversations (fst r) !! user = Some SET_PRIORITY
  ∧ snd r = [RBadPriority].
Proof.
  intros Hconv Hbad.
  destruct (process_update_run strftime int b (mkUpdate user (Text txt) n1 n2)
              cb_set_priority true
              (Handlers.set_priority (task_manager b) (user_data_of b user) txt))
    as (Htm & Hud & Hc & Hrep); [|done|].
  { cbn [effective_user message]. by rewrite Hconv, select_text. }
  unfold Handlers.set_priority in Htm, Hud, Hc, Hrep.
  rewrite bool_decide_eq_false_2 in Htm, Hud, Hc, Hrep by done. done.
Qed.

End Dialogue.

(** X13.  The priority step can be retried without end: any run of text
    messages that are not one of the three labels leaves the dialogue at
    [SET_PRIORITY] with the task manager and the user's session data as they
    were, and a label sent afterwards is accepted and stored beside the text
    already given. *)
Theorem priority_step_can_be_retried :
  ∀ (strftime : Z → string) (int : string → option Z) us b user,
    conversations b !! user = Some SET_PRIORITY →
    Forall (λ u, effective_user u = user
                 ∧ ∃ s, message u = Text s ∧ s ∉ PRIORITIES) us →
    let b' := run_updates strftime int b us in
    task_manager b' = task_manager b
    ∧ user_data_of b' user = user_data_of b user
    ∧ conversations b' !! user = Some SET_PRIORITY
    ∧ ∀ prio n1 n2, prio ∈ PRIORITIES →
        let b2 := fst (process_update strftime int b'
                         (mkUpdate user (Text prio) n1 n2)) in
        conversations b2 !! user = Some SET_REMINDER
        ∧ task_priority (user_data_of b2 user) = Some prio
        ∧ task_text (user_data_of b2 user) = task_text (user_data_of b user).
Proof.
  intros strftime int us.
  assert (∀ b user,
            conversations b !! user = Some SET_PRIORITY →
            Forall (λ u, effective_user u = user
                         ∧ ∃ s, message u = Text s ∧ s ∉ PRIORITIES) us →
            task_manager (run_updates strftime int b us) = task_manager b
            ∧ user_data_of (run_updates strftime int b us) user
              = user_data_of b user
            ∧ conversations (run_updates strftime int b us) !! user
              = Some SET_PRIORITY) as Hloop.
  { induction us as [|u us IH]; intros b user Hconv Hall; [done|].
    apply Forall_cons in Hall as [(Hu & s & Hm & Hbad) Hall].
    destruct u as [user' m n1 n2]. simpl in Hu, Hm. subst user' m.
    destruct (step_bad_priority strftime int b user s n1 n2 Hconv Hbad)
      as (Htm & Hud & Hc & _).
    unfold run_updates in *. cbn [fold_left].
    destruct (IH _ user Hc Hall) as (Htm' & Hud' & Hc').
    rewrite Htm', Hud', Hc', Htm, Hud. done. }
  intros b user Hconv Hall b'.
  destruct (Hloop b user Hconv Hall) as (Htm & Hud & Hc).
  fold b' in Htm, Hud, Hc.
  split; [done|]. split; [done|]. split; [done|].
  intros prio n1 n2 Hprio b2.
  destruct (step_priority strftime int b' user prio n1 n2 Hc Hprio)
    as (_ & Hud2 & Hc2).
  fold b2 in Hud2, Hc2. rewrite Hc2, Hud2. simpl. by rewrite Hud.
Qed.

Lemma priority_step_can_be_retried_witness :
  let b := run_updates show_seconds int_ascii (boot ∅)
             [mkUpdate 7 (Command "add") 1 1; mkUpdate 7 (Text "A") 2 2] in
  let b' := run_updates show_seconds int_ascii b
              [mkUpdate 7 (Text "high") 3 3; mkUpdate 7 (Text "1") 4 4] in
  task_manager b' = task_manager b
  ∧ user_data_of b' 7 = user_data_of b 7
  ∧ conversations b' !! 7 = Some SET_PRIORITY
  ∧ ∀ prio n1 n2, prio ∈ PRIORITIES →
      let b2 := fst (process_update show_seconds int_ascii b'
                       (mkUpdate 7 (Text prio) n1 n2)) in
      conversations b2 !! 7 = Some SET_REMINDER
      ∧ task_priority (user_data_of b2 7) = Some prio
      ∧ task_text (user_data_of b2 7) = task_text (user_data_of b 7).
Proof.
  intros b.
  apply (priority_step_can_be_retried show_seconds int_ascii
           [mkUpdate 7 (Text "high") 3 3; mkUpdate 7 (Text "1") 4 4] b 7).
  - vm_compute. reflexivity.
  - repeat constructor; eexists; (split; [reflexivity|]);
      unfold PRIORITIES; intros H;
      repeat (apply elem_of_cons in H as [H|H]); try discriminate; inversion H.
Defined.

(** X14.  An open dialogue takes the text messages before the resolver sees
    them: while the text or the priority is awaited, a text message, a
    number included, never reaches the task manager and leaves both pending
    flags as they are. *)
Theorem dialogue_preempts_resolver :
  ∀ (strftime : Z → string) (int : string → option Z) b user txt n1 n2,
    conversations b !! user = Some ADD_TASK
    ∨ conversations b !! user = Some SET_PRIORITY →
    let r := process_update strftime int b (mkUpdate user (Text txt) n1 n2) in
    task_manager (fst r) = task_manager b
    ∧ awaiting_complete (user_data_of (fst r) user)
      = awaiting_complete (user_data_of b user)
    ∧ awaiting_delete (user_data_of (fst r) user)
      = awaiting_delete (user_data_of b user)
    ∧ is_Some (conversations (fst r) !! user).
Proof.
  intros strftime int b user txt n1 n2 [Hconv|Hconv] r.
  - destruct (step_text strftime int b user txt n1 n2 Hconv) as (Htm & Hud & Hc).
    fold r in Htm, Hud, Hc. rewrite Htm, Hud, Hc. eauto.
  - destruct (decide (txt ∈ PRIORITIES)) as [Hin|Hout].
    + destruct (step_priority strftime int b user txt n1 n2 Hconv Hin)
        as (Htm & Hud & Hc).
      fold r in Htm, Hud, Hc. rewrite Htm, Hud, Hc. eauto.
    + destruct (step_bad_priority strftime int b user txt n1 n2 Hconv Hout)
        as (Htm & Hud & Hc & _).
      fold r in Htm, Hud, Hc. rewrite Htm, Hud, Hc. eauto.
Qed.

Lemma dialogue_preempts_resolver_witness :
  let b := mkBot (mkTM {[7 := [mkTask 1 "A" (Some HIGH) "t0" false None]]} [])
                 {[7 := mkUD None None true false]} {[7 := ADD_TASK]} in
  let r := process_update show_seconds int_ascii b (mkUpdate 7 (Text "1") 0 0) in
  task_manager (fst r) = task_manager b
  ∧ awaiting_complete (user_data_of (fst r) 7)
    = awaiting_complete (user_data_of b 7)
  ∧ awaiting_delete (user_data_of (fst r) 7)
    = awaiting_delete (user_data_of b 7)
  ∧ is_Some (conversations (fst r) !! 7).
Proof.
  intros b.
  apply (dialogue_preempts_resolver show_seconds int_ascii b 7 "1" 0 0).
  left. reflexivity.
Defined.





(** X16.  [/cancel] also cancels a pending completion or deletion: the text
    message that follows it reaches the resolver with no flag set, so the
    task manager stays as it was before the cancel, a number gets no reply
    and anything else the format error. *)
Theorem cancel_drops_pending_action :
  ∀ (strftime : Z → string) (int : string → option Z) b user txt n1 n2 m1 m2,
    let b1 := fst (process_update strftime int b
                     (mkUpdate user (Command "cancel") n1 n2)) in
    let r := process_update strftime int b1 (mkUpdate user (Text txt) m1 m2) in
    task_manager (fst r) = task_manager b
    ∧ user_data_of (fst r) user = cleared
    ∧ conversations (fst r) !! user = None
    ∧ snd r = match int txt with Some _ => [] | None => [RBadNumber] end.
Proof.
  intros strftime int b user txt n1 n2 m1 m2 b1 r.
  destruct (process_update_run strftime int b
              (mkUpdate user (Command "cancel") n1 n2) cb_cancel
              (match conversations b !! user with None => false | Some _ => true end)
              (Handlers.cancel (task_manager b) (user_data_of b user)))
    as (Htm & Hud & Hconv & _); [apply select_cancel | done |].
  fold b1 in Htm, Hud, Hconv.
  cbn [out_tm out_ud out_ret effective_user Handlers.cancel] in Htm, Hud, Hconv.
  assert (conversations b1 !! user = None) as Hnone.
  { rewrite Hconv. by destruct (conversations b !! user). }
  destruct (process_update_run strftime int b1
              (mkUpdate user (Text txt) m1 m2) cb_handle_task_action false
              (Handlers.handle_task_action int (task_manager b1)
                 (user_data_of b1 user) user txt))
    as (Htm2 & Hud2 & Hconv2 & Hrep2).
  { cbn [effective_user message]. by rewrite Hnone, select_text. }
  { done. }
  fold r in Htm2, Hud2, Hconv2, Hrep2.
  cbn [effective_user] in Hud2, Hconv2.
  rewrite Htm2, Hud2, Hconv2, Hrep2, Hud, Htm.
  unfold Handlers.handle_task_action. simpl.
  by destruct (int txt).
Qed.


